(** * jaxfenics: the assembly adapter between FEniCS and JAX

    A shallow embedding of [jaxfenics/assemble.py].  Python values are an
    inductive type, exceptions are an error monad, the imported libraries
    (fenics, ufl, jax) and the helper converters are a record of
    collaborators, and the registries of JAX are an explicit state. *)

From Stdlib Require Import String Ascii List ZArith Bool Arith Lia.
From Stdlib Require Import Floats.PrimFloat.
Import ListNotations.

Open Scope string_scope.
Open Scope list_scope.

Set Warnings "-register-all".

(** ** Exceptions and the error monad *)

(** The exceptions the module can end with.  [Raised] is an exception that
    comes out of a collaborator (the user function, fenics, ufl, jax or an
    element converter) and passes through this module unchanged. *)
Inductive exn : Type :=
| ValueError (msg : string)
| TypeError (msg : string)
| IndexError
| NotImplementedError
| AssertionError
| UnboundLocalError (var : string)
| TypeCheckError
| Raised (name : string).

Inductive result (A : Type) : Type :=
| Ok (a : A)
| Err (e : exn).

Arguments Ok {A} a.
Arguments Err {A} e.

Definition bind {A B : Type} (r : result A) (k : A -> result B) : result B :=
  match r with
  | Ok a => k a
  | Err e => Err e
  end.

Notation "x <- c1 ;; c2" := (bind c1 (fun x => c2))
  (at level 61, c1 at next level, right associativity).
Notation "c1 ;;; c2" := (bind c1 (fun _ => c2))
  (at level 61, right associativity).

(** What a call into a collaborator does: it returns, or it raises. *)
Inductive ext (A : Type) : Type :=
| Returns (a : A)
| Raises (name : string).

Arguments Returns {A} a.
Arguments Raises {A} name.

Definition call {A : Type} (c : ext A) : result A :=
  match c with
  | Returns a => Ok a
  | Raises n => Err (Raised n)
  end.

(** [[f(x) for x in xs]]: left to right, stopping at the first exception. *)
Fixpoint mapM {A B : Type} (f : A -> result B) (xs : list A) : result (list B) :=
  match xs with
  | [] => Ok []
  | x :: rest =>
      y <- f x ;;
      ys <- mapM f rest ;;
      Ok (y :: ys)
  end.

(** [assert b]. *)
Definition py_assert (b : bool) : result unit :=
  if b then Ok tt else Err AssertionError.

(** ** Arrays *)

(** A numeric array: its shape and its entries in row-major order. *)
Record ndarray : Type := mk_ndarray {
  shape : list nat;
  data : list float
}.

Definition size_of (s : list nat) : nat := fold_right Nat.mul 1 s.

Definition well_shaped (a : ndarray) : Prop :=
  length (data a) = size_of (shape a).

(** [jax.ad_util.zeros_like_jaxval(a)]. *)
Definition zeros_like_jaxval (a : ndarray) : ndarray :=
  mk_ndarray (shape a) (map (fun _ => 0%float) (data a)).

(** ** Python values a user function can return *)

Section Values.

Variable Form : Type.

Inductive pyval : Type :=
| PyNone
| PyBool (b : bool)
| PyInt (n : Z)
| PyFloat (x : float)
| PyFloatSub (cls : string) (x : float)
| PyStr (s : string)
| PyTuple (items : list pyval)
| PyForm (F : Form)
| PyArray (a : ndarray)
| PyObject (cls : string).

(** [isinstance(v, tuple)], [isinstance(v, float)] (an instance of a
    subclass of float is a float) and [isinstance(v, ufl.Form)]. *)
Definition isinstance_tuple (v : pyval) : bool :=
  match v with PyTuple _ => true | _ => false end.

Definition isinstance_float (v : pyval) : bool :=
  match v with PyFloat _ | PyFloatSub _ _ => true | _ => false end.

Definition isinstance_Form (v : pyval) : bool :=
  match v with PyForm _ => true | _ => false end.

Definition class_name (v : pyval) : string :=
  match v with
  | PyNone => "NoneType"
  | PyBool _ => "bool"
  | PyInt _ => "int"
  | PyFloat _ => "float"
  | PyFloatSub cls _ => cls
  | PyStr _ => "str"
  | PyTuple _ => "tuple"
  | PyForm _ => "ufl.form.Form"
  | PyArray _ => "numpy.ndarray"
  | PyObject cls => cls
  end.

(** What [{type(v)}] prints inside an f-string. *)
Definition type_repr (v : pyval) : string :=
  "<class '" ++ class_name v ++ "'>".

End Values.

Arguments PyNone {Form}.
Arguments PyBool {Form} b.
Arguments PyInt {Form} n.
Arguments PyFloat {Form} x.
Arguments PyFloatSub {Form} cls x.
Arguments PyStr {Form} s.
Arguments PyArray {Form} a.
Arguments PyObject {Form} cls.
Arguments PyTuple {Form} items.
Arguments PyForm {Form} F.
Arguments isinstance_tuple {Form} v.
Arguments isinstance_float {Form} v.
Arguments isinstance_Form {Form} v.
Arguments class_name {Form} v.
Arguments type_repr {Form} v.

(** ** Strings: does a message mention a given text? *)

Fixpoint starts_with (p s : string) : bool :=
  match p, s with
  | EmptyString, _ => true
  | String a p', String b s' => Ascii.eqb a b && starts_with p' s'
  | String _ _, EmptyString => false
  end.

Fixpoint contains (t s : string) : bool :=
  starts_with t s ||
  match s with
  | EmptyString => false
  | String _ s' => contains t s'
  end.

(** ** Collaborators *)

(** The direction handed to [fenics.derivative]: a test function on a
    space ([fenics.TestFunction(V)]) or a finite-element variable. *)
Inductive direction (FunctionSpace FenicsVariable : Type) : Type :=
| TestFunction (V : FunctionSpace)
| Along (v : FenicsVariable).

Arguments TestFunction {FunctionSpace FenicsVariable} V.
Arguments Along {FunctionSpace FenicsVariable} v.

(** Everything [assemble.py] imports and calls but does not define: the
    objects and functions of fenics and ufl, two operations of jax.numpy,
    and the element converters of [jaxfenics.helpers].

    - [isinstance_Function v], [isinstance_Constant v]:
      [isinstance(v, fenics.Function)], [isinstance(v, fenics.Constant)];
    - [function_space v]: [v.function_space()];
    - [ufl_domain_cargo F]: [F.ufl_domain().ufl_cargo()], the mesh of [F];
    - [new_FunctionSpace mesh family degree]:
      [fenics.FunctionSpace(mesh, family, degree)];
    - [derivative F v d]: [fenics.derivative(F, v, d)];
    - [assemble F]: [fenics.assemble(F)], which the module compares with
      [None];
    - [expand_derivatives F]: [ufl.algorithms.expand_derivatives(F)];
    - [form_radd F x] and [form_add A F]: what [x + F] and [A + F] are for
      a float [x] and forms [A], [F];
    - [numpy_to_fenics a t]: the finite-element object of the kind of the
      template [t] with the values of [a]; [fenics_to_numpy t]: the array of
      an assembled value; [template_shape t]: the shape of the array a
      template stands for;
    - [to_default_dtype x]: the float [x] as an entry of a jax array;
    - [multiply g a]: [g * a] on jax arrays. *)
Record Collaborators : Type := {
  Mesh : Type;
  FunctionSpace : Type;
  Form : Type;
  Tensor : Type;
  FenicsVariable : Type;
  (* fenics and ufl *)
  isinstance_Function : FenicsVariable -> bool;
  isinstance_Constant : FenicsVariable -> bool;
  function_space : FenicsVariable -> FunctionSpace;
  ufl_domain_cargo : Form -> ext Mesh;
  new_FunctionSpace : Mesh -> string -> Z -> ext FunctionSpace;
  derivative : Form -> FenicsVariable ->
               direction FunctionSpace FenicsVariable -> ext Form;
  assemble : Form -> ext (option Tensor);
  expand_derivatives : Form -> ext Form;
  form_radd : Form -> float -> ext Form;
  form_add : Form -> Form -> ext Form;
  (* jaxfenics.helpers *)
  numpy_to_fenics : ndarray -> FenicsVariable -> ext FenicsVariable;
  fenics_to_numpy : Tensor -> ext ndarray;
  template_shape : FenicsVariable -> list nat;
  (* jax.numpy *)
  to_default_dtype : float -> float;
  multiply : ndarray -> ndarray -> ext ndarray
}.

Section Assemble.

Context (K : Collaborators).

#[local] Abbreviation Var := (FenicsVariable K).
#[local] Abbreviation value := (pyval (Form K)).

(** A user function: called on the finite-element inputs, it returns a
    Python value or raises. *)
Definition user_function : Type := list Var -> ext value.

(** ** The input converter *)

Definition shape_eqb (s t : list nat) : bool :=
  if list_eq_dec Nat.eq_dec s t then true else false.

Fixpoint shapes_match (templates : list Var) (args : list ndarray) : bool :=
  match templates, args with
  | t :: ts, a :: rest =>
      shape_eqb (shape a) (template_shape K t) && shapes_match ts rest
  | _, _ => true
  end.

(** Modelled from the spec: [check_input], which [assemble.py] imports
    from [jaxfenics/helpers.py]; the body of that helper is missing.
    Section 4.1: it fails with a TypeCheckError if the argument count or a
    shape does not match the templates. *)
Definition check_input (fenics_templates : list Var) (args : list ndarray)
  : result unit :=
  if negb (Nat.eqb (length args) (length fenics_templates)) then Err TypeCheckError
  else if negb (shapes_match fenics_templates args) then Err TypeCheckError
  else Ok tt.

Fixpoint convert_each (templates : list Var) (args : list ndarray)
  : result (list Var) :=
  match templates, args with
  | t :: ts, a :: rest =>
      v <- call (numpy_to_fenics K a t) ;;
      vs <- convert_each ts rest ;;
      Ok (v :: vs)
  | _, _ => Ok []
  end.

(** Modelled from the spec: [convert_all_to_fenics], which [assemble.py]
    imports from [jaxfenics/helpers.py]; the body of that helper is
    missing.  Section 4.1: from the templates and a matching collection of
    arrays it builds one finite-element object per template, in order, and
    fails with a TypeCheckError if the argument count does not match. *)
Definition convert_all_to_fenics (fenics_templates : list Var)
  (args : list ndarray) : result (list Var) :=
  if negb (Nat.eqb (length args) (length fenics_templates)) then Err TypeCheckError
  else convert_each fenics_templates args.

(** ** The forward evaluator *)

Definition msg_output_form : string :=
  "FEniCS function output should be in the form (assembly_output, ufl_form).".

Definition msg_single_output : string :=
  "Only single solution output from FEniCS function is supported.".

Definition msg_got (v : value) (expected : string) : string :=
  (msg_output_form ++ " Got " ++ type_repr v ++ " instead of " ++ expected)%string.

(** [a, b = items]: Python's own ValueError when there are not two. *)
Definition unpack_pair (items : list value) : result (value * value) :=
  match items with
  | [a; b] => Ok (a, b)
  | [] => Err (ValueError "not enough values to unpack (expected 2, got 0)")
  | [_] => Err (ValueError "not enough values to unpack (expected 2, got 1)")
  | _ => Err (ValueError "too many values to unpack (expected 2)")
  end.

(** The float an instance of float holds, and the form a ufl.Form is. *)
Definition as_float (v : value) : option float :=
  match v with
  | PyFloat x | PyFloatSub _ x => Some x
  | _ => None
  end.

Definition as_Form (v : value) : option (Form K) :=
  match v with
  | PyForm F => Some F
  | _ => None
  end.

(** [np.asarray(x)] of a Python float: a 0-d array of the default dtype. *)
Definition asarray_float (x : float) : ndarray :=
  mk_ndarray [] [to_default_dtype K x].

Definition assemble_eval (fenics_function : user_function)
  (fenics_templates : list Var) (args : list ndarray)
  : result (ndarray * Form K * list Var) :=
  check_input fenics_templates args ;;;
  fenics_inputs <- convert_all_to_fenics fenics_templates args ;;
  out <- call (fenics_function fenics_inputs) ;;
  match out with
  | PyTuple items =>
      p <- unpack_pair items ;;
      let '(assembly_output, ufl_form) := p in
      if isinstance_tuple assembly_output
      then Err (ValueError msg_single_output)
      else
        match as_float assembly_output with
        | None => Err (ValueError (msg_got assembly_output "float"))
        | Some x =>
            match as_Form ufl_form with
            | None => Err (ValueError (msg_got ufl_form "ufl.Form"))
            | Some F => Ok (asarray_float x, F, fenics_inputs)
            end
        end
  | _ => Err (ValueError msg_output_form)
  end.

(** ** The reverse-mode sensitivity builder *)

(** The space of the test function for one input: the input's own space
    for a [fenics.Function], the space [FunctionSpace(mesh, "Real", 0)] on
    the mesh of the form for a [fenics.Constant]. *)
Definition test_space (fenics_output_form : Form K) (fenics_input : Var)
  : result (FunctionSpace K) :=
  if isinstance_Function K fenics_input
  then Ok (function_space K fenics_input)
  else if isinstance_Constant K fenics_input
  then
    mesh <- call (ufl_domain_cargo K fenics_output_form) ;;
    call (new_FunctionSpace K mesh "Real" 0%Z)
  else Err NotImplementedError.

(** An input the builder has a test space for. *)
Definition supported (fenics_input : Var) : bool :=
  isinstance_Function K fenics_input || isinstance_Constant K fenics_input.

(** The body of the first loop, for one input. *)
Definition grad_form (fenics_output_form : Form K) (fenics_input : Var)
  : result (Form K) :=
  V <- test_space fenics_output_form fenics_input ;;
  let dv := TestFunction V in
  call (derivative K fenics_output_form fenics_input dv).

(** [None if fg is None else np.asarray(g * fenics_to_numpy(fg))]. *)
Definition jax_grad (g : ndarray) (fg : option (Tensor K))
  : result (option ndarray) :=
  match fg with
  | None => Ok None
  | Some t =>
      a <- call (fenics_to_numpy K t) ;;
      p <- call (multiply K g a) ;;
      Ok (Some p)
  end.

Definition vjp_assemble_impl (g : ndarray) (fenics_output_form : Form K)
  (fenics_inputs : list Var) : result (list (option ndarray)) :=
  fenics_grads_forms <- mapM (grad_form fenics_output_form) fenics_inputs ;;
  fenics_grads <- mapM (fun form => call (assemble K form)) fenics_grads_forms ;;
  mapM (jax_grad g) fenics_grads.

(** The generator inside [vjp_fun], from position [i] on:
    [vjp if vjp is not None else zeros_like_jaxval(args[i])]. *)
Fixpoint fill_zeros (args : list ndarray) (i : nat)
  (grads : list (option ndarray)) : result (list ndarray) :=
  match grads with
  | [] => Ok []
  | vjp :: rest =>
      entry <- match vjp with
               | Some v => Ok v
               | None =>
                   match nth_error args i with
                   | Some a => Ok (zeros_like_jaxval a)
                   | None => Err IndexError
                   end
               end ;;
      entries <- fill_zeros args (S i) rest ;;
      Ok (entry :: entries)
  end.

(** The closure [vjp_fun] over [args], [ufl_form] and [fenics_inputs]. *)
Definition vjp_fun (args : list ndarray) (ufl_form : Form K)
  (fenics_inputs : list Var) (g : ndarray) : result (list ndarray) :=
  grads <- vjp_assemble_impl g ufl_form fenics_inputs ;;
  fill_zeros args 0 grads.

Definition vjp_assemble_eval (fenics_function : user_function)
  (fenics_templates : list Var) (args : list ndarray)
  : result (ndarray * (ndarray -> result (list ndarray))) :=
  r <- assemble_eval fenics_function fenics_templates args ;;
  let '(numpy_output, ufl_form, fenics_inputs) := r in
  Ok (numpy_output, vjp_fun args ufl_form fenics_inputs).

(** ** The forward-mode sensitivity builder *)

(** [acc += form], [acc] being the float the loop starts from or the form
    of the earlier rounds: a float has no addition with a form, so Python
    turns to [Form.__radd__]; two forms are added by [Form.__add__]. *)
Definition add_form (acc : float + Form K) (form : Form K)
  : result (float + Form K) :=
  match acc with
  | inl x => F <- call (form_radd K form x) ;; Ok (inr F)
  | inr A => F <- call (form_add K A form) ;; Ok (inr F)
  end.

(** The loop over [zip(fenics_primals, fenics_tangents)]. *)
Fixpoint accumulate (output_primal_form : Form K) (acc : float + Form K)
  (pairs : list (Var * Var)) : result (float + Form K) :=
  match pairs with
  | [] => Ok acc
  | (fp, ft) :: rest =>
      d <- call (derivative K output_primal_form fp (Along ft)) ;;
      acc' <- add_form acc d ;;
      accumulate output_primal_form acc' rest
  end.

(** Reading a local variable that was assigned ([Some]) or not. *)
Definition read_local {A : Type} (name : string) (bound : option A)
  : result A :=
  match bound with
  | Some a => Ok a
  | None => Err (UnboundLocalError name)
  end.

Definition jvp_assemble_eval (fenics_function : user_function)
  (fenics_templates : list Var) (primals tangents : list ndarray)
  : result (ndarray * option (Tensor K)) :=
  r <- assemble_eval fenics_function fenics_templates primals ;;
  let '(numpy_output_primal, output_primal_form, fenics_primals) := r in
  fenics_tangents <- convert_all_to_fenics fenics_primals tangents ;;
  output_tangent_form <-
    accumulate output_primal_form (inl 0%float)
      (combine fenics_primals fenics_tangents) ;;
  output_tangent <-
    match output_tangent_form with
    | inl _ => Ok None
    | inr F =>
        F' <- call (expand_derivatives K F) ;;
        t <- call (assemble K F') ;;
        Ok (Some t)
    end ;;
  jax_output_tangent <- read_local "output_tangent" output_tangent ;;
  Ok (numpy_output_primal, jax_output_tangent).

(** ** The primitive registrar *)

(** *** Iterating and stacking arrays *)

(** [l] cut into [n] consecutive pieces of [m] entries. *)
Fixpoint chunks (n m : nat) (l : list float) : list (list float) :=
  match n with
  | 0 => []
  | S n' => firstn m l :: chunks n' m (skipn m l)
  end.

(** [iter(a)]: the sub-arrays along axis 0; a 0-d array has none. *)
Definition iter_rows (a : ndarray) : result (list ndarray) :=
  match shape a with
  | [] => Err (TypeError "iteration over a 0-d array")
  | n :: s => Ok (map (mk_ndarray s) (chunks n (size_of s) (data a)))
  end.

Fixpoint heads {A : Type} (ls : list (list A)) : option (list A) :=
  match ls with
  | [] => Some []
  | l :: rest =>
      match l, heads rest with
      | x :: _, Some xs => Some (x :: xs)
      | _, _ => None
      end
  end.

Fixpoint zip_upto {A : Type} (n : nat) (ls : list (list A))
  : list (list A) :=
  match n with
  | 0 => []
  | S n' =>
      match heads ls with
      | Some hs => hs :: zip_upto n' (map (@tl A) ls)
      | None => []
      end
  end.

(** The argument tuples on which [map] calls [f], given the iterables:
    the i-th holds the i-th item of every iterable, up to the shortest;
    [map] with no iterable at all is a TypeError. *)
Definition map_arguments {A : Type} (iterables : list (list A))
  : result (list (list A)) :=
  match iterables with
  | [] => Err (TypeError "map() must have at least two arguments.")
  | l :: _ => Ok (zip_upto (length l) iterables)
  end.

(** Arrays of shape [s] stacked along a new leading axis. *)
Definition stack (s : list nat) (l : list ndarray) : ndarray :=
  mk_ndarray (length l :: s) (concat (map data l)).

(** The arguments of a batched call built from argument sets: at each
    position, the arrays the sets hold there, of the shape [shapes] gives
    for the position, stacked along axis 0. *)
Definition stack_arguments (shapes : list (list nat))
  (argsets : list (list ndarray)) : list ndarray :=
  map (fun j =>
         stack (nth j shapes [])
           (map (fun set => nth j set (mk_ndarray [] [])) argsets))
      (seq 0 (length shapes)).

(** [np.asarray(res)] of a list of arrays: the arrays stacked along a new
    leading axis; jax refuses arrays of different shapes. *)
Definition asarray_list (res : list ndarray) : result ndarray :=
  match res with
  | [] => Ok (stack [] [])
  | r :: _ =>
      if forallb (fun x => shape_eqb (shape x) (shape r)) res
      then Ok (stack (shape r) res)
      else Err (Raised "ValueError")
  end.

(** *** The behaviours the decorator defines *)

Section Decorated.

Variable fenics_templates : list Var.
Variable fenics_function : user_function.

(** The rule given to [def_impl]: the first component of what
    [assemble_eval] returns on the arguments. *)
Definition impl_rule (args : list ndarray) : result ndarray :=
  r <- assemble_eval fenics_function fenics_templates args ;;
  Ok (fst (fst r)).

(** [jax_assemble_eval] binds the primitive to its arguments; on arrays,
    binding a primitive runs the rule given to [def_impl]. *)
Definition jax_assemble_eval (args : list ndarray) : result ndarray :=
  impl_rule args.

(** [jax.abstract_arrays.make_shaped_array(a)] keeps the shape of [a]. *)
Definition make_shaped_array (a : ndarray) : list nat := shape a.

Definition abstract_eval_rule (args : list ndarray) : result (list nat) :=
  r <- assemble_eval fenics_function fenics_templates args ;;
  Ok (make_shaped_array (fst (fst r))).

Definition axis_eq_dec (a b : option Z) : {a = b} + {a <> b}.
Proof. decide equality. apply Z.eq_dec. Defined.

Definition axis_eqb (a b : option Z) : bool :=
  if axis_eq_dec a b then true else false.

Definition jax_assemble_eval_batch (vector_arg_values : list ndarray)
  (batch_axes : list (option Z)) : result (ndarray * option Z) :=
  py_assert (Nat.eqb (length (nodup axis_eq_dec batch_axes)) 1) ;;;
  axis0 <- match nth_error batch_axes 0 with
           | Some a => Ok a
           | None => Err IndexError
           end ;;
  py_assert (axis_eqb axis0 (Some 0%Z)) ;;;
  iterables <- mapM iter_rows vector_arg_values ;;
  arguments <- map_arguments iterables ;;
  res <- mapM jax_assemble_eval arguments ;;
  res <- asarray_list res ;;
  Ok (res, axis0).

(** The rule given to [def_impl] of the second primitive, which
    [djax_assemble_eval] binds. *)
Definition djax_assemble_eval (args : list ndarray)
  : result (ndarray * (ndarray -> result (list ndarray))) :=
  vjp_assemble_eval fenics_function fenics_templates args.

End Decorated.

End Assemble.

(** *** The registries of JAX and the decorator *)

Section Registrar.

Context (K : Collaborators).

Definition vjp_callable : Type :=
  list ndarray -> result (ndarray * (ndarray -> result (list ndarray))).

Definition jvp_callable : Type :=
  list ndarray -> list ndarray -> result (ndarray * option (Tensor K)).

(** What can be registered for a primitive: a rule by [def_impl] (of a
    primitive that yields an array, or one that yields the pair of
    [vjp_assemble_eval]), by [def_abstract_eval], in
    [batching.primitive_batchers], by [defvjp_all], or by [defjvp_all]
    (imported by the module too). *)
Inductive rule : Type :=
| Impl (f : list ndarray -> result ndarray)
| ImplPair (f : vjp_callable)
| AbstractEval (f : list ndarray -> result (list nat))
| Batcher (f : list ndarray -> list (option Z) -> result (ndarray * option Z))
| VjpAll (custom_vjp : vjp_callable)
| JvpAll (custom_jvp : jvp_callable).

Inductive behaviour : Type :=
| Evaluation
| AbstractEvaluation
| BatchedEvaluation
| ReverseDerivative
| ForwardDerivative.

Definition behaviour_of (r : rule) : behaviour :=
  match r with
  | Impl _ | ImplPair _ => Evaluation
  | AbstractEval _ => AbstractEvaluation
  | Batcher _ => BatchedEvaluation
  | VjpAll _ => ReverseDerivative
  | JvpAll _ => ForwardDerivative
  end.

(** A primitive is an object: its identity is what rules are keyed by, its
    name is only a label. *)
Record Primitive : Type := {
  identity : nat;
  name : string
}.

(** The state of JAX the decorator acts on: the identities handed out so
    far and the rules registered, oldest first. *)
Record jax_state : Type := {
  next_identity : nat;
  registered : list (nat * rule)
}.

Definition new_Primitive (label : string) (s : jax_state)
  : Primitive * jax_state :=
  ({| identity := next_identity s; name := label |},
   {| next_identity := S (next_identity s); registered := registered s |}).

Definition register (p : Primitive) (r : rule) (s : jax_state) : jax_state :=
  {| next_identity := next_identity s;
     registered := registered s ++ [(identity p, r)] |}.

Definition rules_of (i : nat) (s : jax_state) : list rule :=
  map snd (filter (fun e => Nat.eqb (fst e) i) (registered s)).

(** A function that binds a primitive to its arguments. *)
Record binder : Type := {
  binds : nat;
  run : list ndarray -> result ndarray
}.

(** [build_jax_assemble_eval(fenics_templates)(fenics_function)]. *)
Definition build_jax_assemble_eval (fenics_templates : list (FenicsVariable K))
  (fenics_function : user_function K) (s : jax_state) : binder * jax_state :=
  let (jax_assemble_eval_p, s) := new_Primitive "jax_assemble_eval" s in
  let s := register jax_assemble_eval_p
             (Impl (impl_rule K fenics_templates fenics_function)) s in
  let s := register jax_assemble_eval_p
             (AbstractEval
                (abstract_eval_rule K fenics_templates fenics_function)) s in
  let s := register jax_assemble_eval_p
             (Batcher
                (jax_assemble_eval_batch K fenics_templates fenics_function))
             s in
  let (djax_assemble_eval_p, s) := new_Primitive "djax_assemble_eval" s in
  let s := register djax_assemble_eval_p
             (ImplPair (vjp_assemble_eval K fenics_function fenics_templates))
             s in
  let s := register jax_assemble_eval_p
             (VjpAll (djax_assemble_eval K fenics_templates fenics_function))
             s in
  ({| binds := identity jax_assemble_eval_p;
      run := jax_assemble_eval K fenics_templates fenics_function |}, s).

(** Every rule is keyed by an identity that was handed out. *)
Definition consistent (s : jax_state) : Prop :=
  Forall (fun e => fst e < next_identity s) (registered s).

End Registrar.

Arguments behaviour_of {K} r.
Arguments next_identity {K} j.
Arguments registered {K} j.
Arguments rules_of {K} i s.
Arguments consistent {K} s.

(** ** A small instance of the collaborators

    Meshes are trivial, a function space is a number, a form is a number
    that counts the derivatives taken of it, and assembly yields one
    float; the form [0] assembles to [None]. *)

Module Toy.

Inductive variable : Type :=
| AFunction (V : nat) (dofs : ndarray)
| AConstant (values : ndarray)
| AnExpression.

Definition is_function (v : variable) : bool :=
  match v with AFunction _ _ => true | _ => false end.

Definition is_constant (v : variable) : bool :=
  match v with AConstant _ => true | _ => false end.

Definition space_of (v : variable) : nat :=
  match v with AFunction V _ => V | _ => 0 end.

Definition convert (a : ndarray) (template : variable) : ext variable :=
  match template with
  | AFunction V _ => Returns (AFunction V a)
  | AConstant _ => Returns (AConstant a)
  | AnExpression => Returns AnExpression
  end.

Definition shape_of (v : variable) : list nat :=
  match v with
  | AFunction _ dofs => shape dofs
  | AConstant values => shape values
  | AnExpression => []
  end.

(** The derivative along a test function of the space [9] vanishes. *)
Definition differentiate (F : nat) (v : variable)
  (d : direction nat variable) : ext nat :=
  match d with
  | TestFunction 9 => Returns 0
  | _ => Returns (S F)
  end.

Definition integrate (F : nat) : ext (option float) :=
  match F with
  | 0 => Returns None
  | _ => Returns (Some 2%float)
  end.

(** The product of a 0-d array with an array. *)
Definition scale (g a : ndarray) : ext ndarray :=
  match data g with
  | [x] => Returns (mk_ndarray (shape a) (map (PrimFloat.mul x) (data a)))
  | _ => Raises "TypeError"
  end.

Definition world : Collaborators := {|
  Mesh := unit;
  FunctionSpace := nat;
  Form := nat;
  Tensor := float;
  FenicsVariable := variable;
  isinstance_Function := is_function;
  isinstance_Constant := is_constant;
  function_space := space_of;
  ufl_domain_cargo := fun _ => Returns tt;
  new_FunctionSpace := fun _ _ _ => Returns 0;
  derivative := differentiate;
  assemble := integrate;
  expand_derivatives := fun F => Returns F;
  form_radd := fun F _ => Returns F;
  form_add := fun A B => Returns (A + B);
  numpy_to_fenics := convert;
  fenics_to_numpy := fun t => Returns (mk_ndarray [] [t]);
  template_shape := shape_of;
  to_default_dtype := fun x => x;
  multiply := scale
|}.

Definition scalar (x : float) : ndarray := mk_ndarray [] [x].

Definition one : float := 1%float.
Definition three : float := 3%float.

(** A user function that returns a float and a form, as it must. *)
Definition good_function : user_function world :=
  fun _ => Returns (PyTuple [PyFloat three; PyForm 7]).

(** User functions that break the contract, each in one way. *)
Definition lone_int : user_function world :=
  fun _ => Returns (PyInt 3).

Definition int_and_form : user_function world :=
  fun _ => Returns (PyTuple [PyInt 3; PyForm 7]).

Definition two_floats : user_function world :=
  fun _ => Returns (PyTuple [PyFloat three; PyFloat one]).

Definition tuple_and_form : user_function world :=
  fun _ => Returns (PyTuple [PyTuple [PyFloat three]; PyForm 7]).

(** A user function whose value is the first entry of its first input. *)
Definition first_entry (v : variable) : float :=
  match v with
  | AFunction _ a | AConstant a => hd 0%float (data a)
  | AnExpression => 0%float
  end.

Definition read_first : user_function world :=
  fun inputs =>
    match inputs with
    | v :: _ => Returns (PyTuple [PyFloat (first_entry v); PyForm 7])
    | [] => Raises "TypeError"
    end.

Definition constant_template : variable := AConstant (scalar one).
Definition function_template : variable := AFunction 5 (scalar one).
Definition flat_template : variable := AFunction 9 (scalar one).

Definition empty_state : jax_state world :=
  {| next_identity := 0; registered := [] |}.

(** A user function that returns one value too many, and one that
    raises. *)
Definition three_values : user_function world :=
  fun _ => Returns (PyTuple [PyFloat three; PyForm 7; PyNone]).

Definition raising_function : user_function world :=
  fun _ => Raises "RuntimeError".

(** A user function whose value is a numpy.float64, a scalar type of a
    library that derives from float. *)
Definition numpy_float_and_form : user_function world :=
  fun _ => Returns (PyTuple [PyFloatSub "numpy.float64" three; PyForm 7]).

End Toy.

(** * Properties *)

(** ** The error monad and lists *)

Lemma bind_Ok {A B : Type} (r : result A) (k : A -> result B) (b : B) :
  bind r k = Ok b -> exists a, r = Ok a /\ k a = Ok b.
Proof.
  destruct r as [a | e]; simpl; intro H.
  - exists a. split; [reflexivity | exact H].
  - discriminate H.
Qed.

Lemma call_Ok {A : Type} (c : ext A) (a : A) :
  call c = Ok a -> c = Returns a.
Proof.
  destruct c; simpl; intro H; [injection H as -> | discriminate H].
  reflexivity.
Qed.

(** Splits a hypothesis [x <- c ;; k = Ok b] into its two steps. *)
Ltac bind_inv H :=
  let a := fresh "a" in
  let Ha := fresh "H" a in
  apply bind_Ok in H; destruct H as [a [Ha H]].

Lemma mapM_Forall2 {A B : Type} (f : A -> result B) (xs : list A)
  (ys : list B) :
  mapM f xs = Ok ys <-> Forall2 (fun x y => f x = Ok y) xs ys.
Proof.
  revert ys. induction xs as [| x xs IH]; intro ys; simpl; split; intro H.
  - injection H as <-. constructor.
  - inversion H. reflexivity.
  - bind_inv H. bind_inv H. injection H as <-.
    constructor; [assumption | apply IH; assumption].
  - inversion H as [| x' y l l' Hxy Hrest]; subst.
    rewrite Hxy. simpl. apply IH in Hrest. rewrite Hrest. reflexivity.
Qed.

Lemma mapM_length {A B : Type} (f : A -> result B) (xs : list A)
  (ys : list B) :
  mapM f xs = Ok ys -> length ys = length xs.
Proof.
  intro H. apply mapM_Forall2 in H. symmetry.
  induction H; simpl; congruence.
Qed.

Lemma mapM_Err_prefix {A B : Type} (f : A -> result B) (pre post : list A)
  (x : A) (ys : list B) (e : exn) :
  mapM f pre = Ok ys -> f x = Err e -> mapM f (pre ++ x :: post) = Err e.
Proof.
  revert ys. induction pre as [| p pre IH]; intros ys Hpre Hx; simpl.
  - rewrite Hx. reflexivity.
  - simpl in Hpre. bind_inv Hpre. bind_inv Hpre.
    rewrite Ha. simpl. rewrite (IH _ Ha0 Hx). reflexivity.
Qed.

(** ** Messages *)

Lemma starts_with_app (t s : string) : starts_with t (t ++ s)%string = true.
Proof.
  induction t as [| c t IH]; simpl.
  - reflexivity.
  - rewrite Ascii.eqb_refl. exact IH.
Qed.

Lemma contains_start (t s : string) : contains t (t ++ s)%string = true.
Proof.
  destruct (t ++ s)%string eqn:E; simpl.
  - destruct t; [reflexivity | discriminate E].
  - rewrite <- E. rewrite starts_with_app. reflexivity.
Qed.

Lemma contains_later (t p s : string) :
  contains t s = true -> contains t (p ++ s)%string = true.
Proof.
  intro H. induction p as [| c p IH]; simpl.
  - exact H.
  - rewrite IH. apply orb_true_r.
Qed.

(** ** The forward evaluator *)

Section ForwardEvaluator.

Context (K : Collaborators).

Variable fenics_function : user_function K.
Variable fenics_templates : list (FenicsVariable K).
Variable args : list ndarray.

Lemma convert_each_length (templates : list (FenicsVariable K))
  (arrays : list ndarray) (vs : list (FenicsVariable K)) :
  length arrays = length templates ->
  convert_each K templates arrays = Ok vs ->
  length vs = length templates.
Proof.
  revert arrays vs.
  induction templates as [| t ts IH]; intros [| a rest] vs Hlen H;
    simpl in *; try discriminate Hlen.
  - injection H as <-. reflexivity.
  - bind_inv H. bind_inv H. injection H as <-. simpl.
    f_equal. apply (IH rest); [lia | assumption].
Qed.

Lemma convert_all_to_fenics_length (templates : list (FenicsVariable K))
  (arrays : list ndarray) (vs : list (FenicsVariable K)) :
  convert_all_to_fenics K templates arrays = Ok vs ->
  length vs = length arrays /\ length vs = length templates.
Proof.
  unfold convert_all_to_fenics.
  destruct (Nat.eqb (length arrays) (length templates)) eqn:E; simpl.
  - apply Nat.eqb_eq in E. intro H.
    pose proof (convert_each_length _ _ _ E H). lia.
  - discriminate.
Qed.

(** What a successful forward evaluation went through. *)
Lemma assemble_eval_Ok (out : ndarray) (F : Form K)
  (ins : list (FenicsVariable K)) :
  assemble_eval K fenics_function fenics_templates args = Ok (out, F, ins) ->
  check_input K fenics_templates args = Ok tt /\
  convert_all_to_fenics K fenics_templates args = Ok ins /\
  exists a b x,
    fenics_function ins = Returns (PyTuple [a; b]) /\
    as_float K a = Some x /\ as_Form K b = Some F /\ out = asarray_float K x.
Proof.
  unfold assemble_eval.
  destruct (check_input K fenics_templates args) as [[] | e] eqn:Hc;
    [simpl | discriminate].
  destruct (convert_all_to_fenics K fenics_templates args) as [vs | e] eqn:Hv;
    [simpl | discriminate].
  destruct (fenics_function vs) as [v | n] eqn:Hf; [simpl | discriminate].
  destruct v as [| | | | | | items | | |]; try discriminate.
  destruct items as [| a [| b [| c items]]]; try discriminate. simpl.
  destruct (isinstance_tuple a); [discriminate |].
  destruct (as_float K a) as [x |] eqn:Ea; [| discriminate].
  destruct (as_Form K b) as [F' |] eqn:Eb; [| discriminate].
  intro H. injection H as <- <- <-.
  repeat split.
  exists a, b, x. repeat split; assumption.
Qed.

Lemma assemble_eval_inputs_length (out : ndarray) (F : Form K)
  (ins : list (FenicsVariable K)) :
  assemble_eval K fenics_function fenics_templates args = Ok (out, F, ins) ->
  length ins = length args.
Proof.
  intro H. apply assemble_eval_Ok in H. destruct H as (_ & H & _).
  apply convert_all_to_fenics_length in H. tauto.
Qed.

(** The forward evaluation once the inputs are converted and the user
    function has returned [out]: only the checks of the output remain. *)
Lemma assemble_eval_returned (ins : list (FenicsVariable K))
  (out : pyval (Form K)) :
  check_input K fenics_templates args = Ok tt ->
  convert_all_to_fenics K fenics_templates args = Ok ins ->
  fenics_function ins = Returns out ->
  assemble_eval K fenics_function fenics_templates args =
  match out with
  | PyTuple items =>
      p <- unpack_pair K items ;;
      if isinstance_tuple (fst p)
      then Err (ValueError msg_single_output)
      else
        match as_float K (fst p) with
        | None => Err (ValueError (msg_got K (fst p) "float"))
        | Some x =>
            match as_Form K (snd p) with
            | None => Err (ValueError (msg_got K (snd p) "ufl.Form"))
            | Some F => Ok (asarray_float K x, F, ins)
            end
        end
  | _ => Err (ValueError msg_output_form)
  end.
Proof.
  intros Hc Hv Hf. unfold assemble_eval.
  rewrite Hc, Hv. simpl. rewrite Hf. simpl.
  destruct out; try reflexivity.
  destruct (unpack_pair K items) as [[a b] | e]; reflexivity.
Qed.

Lemma msg_got_names_type (v : pyval (Form K)) (expected : string) :
  contains (type_repr v) (msg_got K v expected) = true.
Proof.
  unfold msg_got.
  do 2 apply contains_later. apply contains_start.
Qed.

End ForwardEvaluator.

(** ** The contract on what the user function returns *)

Section OutputContract.

Context (K : Collaborators).

Variable fenics_function : user_function K.
Variable fenics_templates : list (FenicsVariable K).
Variable args : list ndarray.
Variable fenics_inputs : list (FenicsVariable K).

Hypothesis checked : check_input K fenics_templates args = Ok tt.
Hypothesis converted :
  convert_all_to_fenics K fenics_templates args = Ok fenics_inputs.

(** C3, as amended.  Once the inputs are converted and the user function
    has returned [out]: if [out] is not a tuple the call fails with a
    ValueError whose message is the fixed text on the expected form; if
    [out] is a pair whose first element is neither a tuple nor a float,
    the call fails with a ValueError whose message names the type of the
    first element; if the first element is a float and the second is not
    a form, it fails with a ValueError whose message names the type of the
    second element; and on a pair of a float and a form no error is
    raised: the float comes back as a 0-d array of the default dtype,
    with the form and the inputs. *)
Theorem assemble_eval_contract (out : pyval (Form K)) :
  fenics_function fenics_inputs = Returns out ->
  (isinstance_tuple out = false ->
   assemble_eval K fenics_function fenics_templates args =
   Err (ValueError msg_output_form)) /\
  (forall a b, out = PyTuple [a; b] ->
   isinstance_tuple a = false -> isinstance_float a = false ->
   exists msg,
     assemble_eval K fenics_function fenics_templates args =
     Err (ValueError msg) /\
     contains (type_repr a) msg = true) /\
  (forall a b, out = PyTuple [a; b] ->
   isinstance_float a = true -> isinstance_Form b = false ->
   exists msg,
     assemble_eval K fenics_function fenics_templates args =
     Err (ValueError msg) /\
     contains (type_repr b) msg = true) /\
  (forall a b, out = PyTuple [a; b] ->
   isinstance_float a = true -> isinstance_Form b = true ->
   exists x F,
     as_float K a = Some x /\ b = PyForm F /\
     assemble_eval K fenics_function fenics_templates args =
     Ok (mk_ndarray [] [to_default_dtype K x], F, fenics_inputs)).
Proof.
  intro Hf.
  rewrite (assemble_eval_returned K _ _ _ _ _ checked converted Hf).
  repeat split.
  - intro Ht. destruct out; try reflexivity. discriminate Ht.
  - intros a b -> Ht Hfl. simpl. rewrite Ht.
    exists (msg_got K a "float"). split.
    + destruct a; try reflexivity; discriminate Hfl.
    + apply msg_got_names_type.
  - intros a b -> Hfl Hfo. simpl.
    exists (msg_got K b "ufl.Form"). split.
    + destruct a; try discriminate Hfl; simpl;
        destruct b; try reflexivity; discriminate Hfo.
    + apply msg_got_names_type.
  - intros a b -> Hfl Hfo. simpl.
    destruct b; try discriminate Hfo.
    destruct a; try discriminate Hfl; simpl; eauto.
Qed.

(** C10, as amended.  The forward evaluator accepts as first element only
    an instance of float, an instance of a subclass of float such as
    numpy.float64 included.  When the user function returns a pair: a
    first element that is not an instance of float (and not a tuple) is
    rejected with the ValueError that reports its type instead of float,
    whatever the second element is; a first element that is itself a
    tuple is rejected with the single-output ValueError, a different
    message, before the float check is reached. *)
Theorem assemble_eval_first_element (a b : pyval (Form K)) :
  fenics_function fenics_inputs = Returns (PyTuple [a; b]) ->
  (isinstance_tuple a = false -> isinstance_float a = false ->
   assemble_eval K fenics_function fenics_templates args =
   Err (ValueError (msg_got K a "float"))) /\
  (isinstance_tuple a = true ->
   isinstance_float a = false /\
   assemble_eval K fenics_function fenics_templates args =
   Err (ValueError msg_single_output) /\
   msg_single_output <> msg_got K a "float").
Proof.
  intro Hf.
  rewrite (assemble_eval_returned K _ _ _ _ _ checked converted Hf).
  simpl. split.
  - intros Ht Hfl. rewrite Ht.
    destruct a; try reflexivity; discriminate Hfl.
  - intro Ht. rewrite Ht. repeat split.
    + destruct a; try reflexivity; discriminate Ht.
    + discriminate.
Qed.

End OutputContract.

(** C3 fails as stated when the user function returns a lone integer: the
    call does fail with a ValueError, but its message is the fixed text,
    which does not name the type observed. *)
Lemma lone_int_message_names_no_type :
  assemble_eval Toy.world Toy.lone_int [Toy.constant_template]
    [Toy.scalar Toy.three] = Err (ValueError msg_output_form) /\
  ~ (exists msg,
       assemble_eval Toy.world Toy.lone_int [Toy.constant_template]
         [Toy.scalar Toy.three] = Err (ValueError msg) /\
       contains (type_repr (PyInt (Form := nat) 3)) msg = true).
Proof.
  split; [reflexivity |].
  intros [msg [H Hc]].
  vm_compute in H. injection H as <-.
  vm_compute in Hc. discriminate Hc.
Qed.

(** The contract at work: a float and a form come back as an array, the
    form and the inputs. *)
Lemma assemble_eval_contract_witness :
  exists x F,
    as_float Toy.world (PyFloat Toy.three) = Some x /\
    PyForm 7 = PyForm F /\
    assemble_eval Toy.world Toy.good_function [Toy.constant_template]
      [Toy.scalar Toy.three] =
    Ok (mk_ndarray [] [x], F, [Toy.AConstant (Toy.scalar Toy.three)]).
Proof.
  exact (proj2 (proj2 (proj2
    (assemble_eval_contract Toy.world Toy.good_function
       [Toy.constant_template] [Toy.scalar Toy.three]
       [Toy.AConstant (Toy.scalar Toy.three)] eq_refl eq_refl
       (PyTuple [PyFloat Toy.three; PyForm 7]) eq_refl)))
    (PyFloat Toy.three) (PyForm 7) eq_refl eq_refl eq_refl).
Defined.

(** C10 fails as stated when the first element is a numpy.float64: it is
    a scalar type of a library and not an exact Python float (its type is
    not float), yet [isinstance] takes it for a float and the call is not
    rejected: it returns the value as an array. *)
Lemma numpy_float64_is_accepted :
  class_name (PyFloatSub (Form := nat) "numpy.float64" Toy.three) <> "float" /\
  assemble_eval Toy.world Toy.numpy_float_and_form [Toy.constant_template]
    [Toy.scalar Toy.three] =
  Ok (Toy.scalar Toy.three, 7, [Toy.AConstant (Toy.scalar Toy.three)]).
Proof.
  split; [discriminate | reflexivity].
Qed.

(** An integer as first element is reported with its type. *)
Lemma assemble_eval_first_element_witness :
  assemble_eval Toy.world Toy.int_and_form [Toy.constant_template]
    [Toy.scalar Toy.three] =
  Err (ValueError (msg_got Toy.world (PyInt 3) "float")).
Proof.
  exact (proj1
    (assemble_eval_first_element Toy.world Toy.int_and_form
       [Toy.constant_template] [Toy.scalar Toy.three]
       [Toy.AConstant (Toy.scalar Toy.three)] eq_refl eq_refl
       (PyInt 3) (PyForm 7) eq_refl) eq_refl eq_refl).
Defined.

(** ** The reverse-mode sensitivity builder *)

Lemma mapM_Err {A B : Type} (f : A -> result B) (xs : list A) (e : exn) :
  mapM f xs = Err e ->
  exists pre x post ys,
    xs = pre ++ x :: post /\ mapM f pre = Ok ys /\ f x = Err e.
Proof.
  induction xs as [| x xs IH]; simpl; intro H; [discriminate H |].
  destruct (f x) as [y |] eqn:Ex; simpl in H.
  - destruct (mapM f xs) as [ys |] eqn:Exs; simpl in H; [discriminate H |].
    injection H as ->.
    destruct (IH eq_refl) as (pre & x' & post & ys & -> & Hpre & Hx').
    exists (x :: pre), x', post, (y :: ys). simpl.
    rewrite Ex, Hpre. auto.
  - injection H as ->. exists [], x, xs, []. auto.
Qed.

Lemma zeros_like_jaxval_zero (a : ndarray) :
  shape (zeros_like_jaxval a) = shape a /\
  length (data (zeros_like_jaxval a)) = length (data a) /\
  Forall (fun x => x = 0%float) (data (zeros_like_jaxval a)).
Proof.
  unfold zeros_like_jaxval. simpl. repeat split.
  - apply length_map.
  - induction (data a); simpl; constructor; auto.
Qed.

(** The generator of [vjp_fun] never runs out of arguments as long as
    there are no more gradients than arguments. *)
Lemma fill_zeros_total (args : list ndarray) (grads : list (option ndarray)) :
  forall i, i + length grads <= length args ->
  exists t,
    fill_zeros args i grads = Ok t /\ length t = length grads /\
    forall j grad, nth_error grads j = Some grad ->
      exists a, nth_error args (i + j) = Some a /\
        nth_error t j =
        Some (match grad with Some v => v | None => zeros_like_jaxval a end).
Proof.
  induction grads as [| vjp rest IH]; intros i Hlen; simpl in *.
  - exists []. repeat split. intros [| j] grad H; discriminate H.
  - destruct (IH (S i)) as (t & Ht & Hl & Hnth); [lia |].
    destruct (nth_error args i) as [a |] eqn:Ea.
    2: { apply nth_error_None in Ea. lia. }
    exists ((match vjp with Some v => v | None => zeros_like_jaxval a end) :: t).
    repeat split.
    + destruct vjp; simpl; rewrite Ht; reflexivity.
    + simpl. congruence.
    + intros [| j] grad H; simpl in H.
      * injection H as <-. exists a. rewrite Nat.add_0_r. auto.
      * destruct (Hnth j grad H) as (a' & Ha' & Hj).
        exists a'. rewrite Nat.add_succ_r. auto.
Qed.

Section ReverseMode.

Context (K : Collaborators).

Lemma call_not_NotImplemented {A : Type} (c : ext A) :
  call c <> Err NotImplementedError.
Proof. destruct c; discriminate. Qed.

Lemma grad_form_NotImplemented (F : Form K) (v : FenicsVariable K) :
  grad_form K F v = Err NotImplementedError <-> supported K v = false.
Proof.
  unfold grad_form, test_space, supported.
  destruct (isinstance_Function K v); simpl.
  - split; [| discriminate]. intro H.
    exfalso. exact (call_not_NotImplemented _ H).
  - destruct (isinstance_Constant K v); simpl.
    + split; [| discriminate]. intro H. exfalso.
      destruct (ufl_domain_cargo K F) as [mesh |]; simpl in H;
        [| discriminate H].
      destruct (new_FunctionSpace K mesh "Real" 0%Z) as [V |]; simpl in H;
        [| discriminate H].
      exact (call_not_NotImplemented _ H).
    + split; reflexivity.
Qed.

Lemma jax_grad_not_NotImplemented (g : ndarray) (fg : option (Tensor K)) :
  jax_grad K g fg <> Err NotImplementedError.
Proof.
  destruct fg as [t |]; simpl; [| discriminate].
  destruct (fenics_to_numpy K t) as [a |]; simpl; [| discriminate].
  destruct (multiply K g a); simpl; discriminate.
Qed.

Lemma vjp_assemble_impl_length (g : ndarray) (F : Form K)
  (ins : list (FenicsVariable K)) (grads : list (option ndarray)) :
  vjp_assemble_impl K g F ins = Ok grads -> length grads = length ins.
Proof.
  unfold vjp_assemble_impl. intro H.
  apply bind_Ok in H. destruct H as (forms & Hforms & H).
  apply bind_Ok in H. destruct H as (fgs & Hfgs & H).
  apply mapM_length in Hforms, Hfgs, H. congruence.
Qed.

(** C1.  Reverse-mode sensitivity is total.  Whenever [vjp_assemble_eval]
    returns an output and a closure, a call of the closure on a cotangent
    [g] fails only if the gradient computation [vjp_assemble_impl] fails,
    with the same exception; and when that computation yields its
    gradients, the closure returns a tuple with exactly one entry per
    positional argument, the i-th being the i-th gradient or, where the
    gradient is [None], the zero array of the shape of the i-th
    argument. *)
Theorem vjp_fun_total (fenics_function : user_function K)
  (fenics_templates : list (FenicsVariable K)) (args : list ndarray)
  (out : ndarray) (vjp : ndarray -> result (list ndarray)) :
  vjp_assemble_eval K fenics_function fenics_templates args = Ok (out, vjp) ->
  exists F ins,
    assemble_eval K fenics_function fenics_templates args = Ok (out, F, ins) /\
    forall g,
      match vjp_assemble_impl K g F ins with
      | Err e => vjp g = Err e
      | Ok grads =>
          exists t,
            vjp g = Ok t /\ length t = length args /\
            forall i a, nth_error args i = Some a ->
              exists grad,
                nth_error grads i = Some grad /\
                nth_error t i =
                Some (match grad with
                      | Some v => v
                      | None => zeros_like_jaxval a
                      end) /\
                shape (zeros_like_jaxval a) = shape a /\
                Forall (fun x => x = 0%float) (data (zeros_like_jaxval a))
      end.
Proof.
  unfold vjp_assemble_eval. intro H.
  apply bind_Ok in H. destruct H as ([[o F] ins] & Heval & H).
  injection H as <- <-.
  exists F, ins. split; [exact Heval |].
  intro g. unfold vjp_fun.
  destruct (vjp_assemble_impl K g F ins) as [grads | e] eqn:Himpl; simpl;
    [| reflexivity].
  pose proof (vjp_assemble_impl_length _ _ _ _ Himpl) as Hlen.
  pose proof (assemble_eval_inputs_length _ _ _ _ _ _ _ Heval) as Hins.
  destruct (fill_zeros_total args grads 0) as (t & Ht & Hl & Hnth); [lia |].
  exists t. repeat split; [exact Ht | lia |].
  intros i a Ha.
  destruct (nth_error grads i) as [grad |] eqn:Eg.
  2: { apply nth_error_None in Eg.
       assert (i < length args) by (apply nth_error_Some; congruence). lia. }
  destruct (Hnth i grad Eg) as (a' & Ha' & Hi). simpl in Ha'.
  assert (a' = a) by congruence. subst a'.
  exists grad. repeat split; try assumption; apply zeros_like_jaxval_zero.
Qed.

(** C4.  The gradient computation returns [grads] exactly when, for every
    input [v] in order, the collaborators return as follows and the entry
    is as follows: [V] is the function space of [v] itself if [v] is a
    Function, and the space [FunctionSpace(mesh, "Real", 0)] on the mesh of
    the form if [v] is a Constant; [dF] is the derivative of the form with
    respect to [v] along the test function of [V]; [fg] is what assembling
    [dF] gives; and the entry is the cotangent [g] multiplied by the array
    of [fg] (or [None] if [fg] is [None]). *)
Theorem vjp_assemble_impl_entries (g : ndarray) (F : Form K)
  (ins : list (FenicsVariable K)) (grads : list (option ndarray)) :
  vjp_assemble_impl K g F ins = Ok grads <->
  exists forms fgs,
    Forall2 (fun v dF =>
      exists V,
        (isinstance_Function K v = true /\ V = function_space K v \/
         isinstance_Function K v = false /\ isinstance_Constant K v = true /\
         exists mesh,
           ufl_domain_cargo K F = Returns mesh /\
           new_FunctionSpace K mesh "Real" 0%Z = Returns V) /\
        derivative K F v (TestFunction V) = Returns dF) ins forms /\
    Forall2 (fun dF fg => assemble K dF = Returns fg) forms fgs /\
    Forall2 (fun fg grad =>
      match fg with
      | None => grad = None
      | Some t =>
          exists a p,
            fenics_to_numpy K t = Returns a /\
            multiply K g a = Returns p /\ grad = Some p
      end) fgs grads.
Proof.
  unfold vjp_assemble_impl. split.
  - intro H.
    apply bind_Ok in H. destruct H as (forms & Hforms & H).
    apply bind_Ok in H. destruct H as (fgs & Hfgs & H).
    exists forms, fgs. repeat split.
    + apply mapM_Forall2 in Hforms.
      eapply Forall2_impl; [| exact Hforms].
      intros v dF Hg. unfold grad_form in Hg.
      apply bind_Ok in Hg. destruct Hg as (V & HV & Hd).
      apply call_Ok in Hd. exists V. split; [| exact Hd].
      unfold test_space in HV.
      destruct (isinstance_Function K v).
      * left. injection HV as <-. auto.
      * right. destruct (isinstance_Constant K v); [| discriminate HV].
        apply bind_Ok in HV. destruct HV as (mesh & Hm & HV).
        apply call_Ok in Hm, HV. eauto.
    + apply mapM_Forall2 in Hfgs.
      eapply Forall2_impl; [| exact Hfgs].
      intros dF fg Hc. apply call_Ok. exact Hc.
    + apply mapM_Forall2 in H.
      eapply Forall2_impl; [| exact H].
      intros [t |] grad Hj; simpl in Hj.
      * apply bind_Ok in Hj. destruct Hj as (a & Ha & Hj).
        apply bind_Ok in Hj. destruct Hj as (p & Hp & Hj).
        apply call_Ok in Ha, Hp. injection Hj as <-. eauto.
      * injection Hj as <-. reflexivity.
  - intros (forms & fgs & Hforms & Hfgs & Hgrads).
    assert (E1 : mapM (grad_form K F) ins = Ok forms).
    { apply mapM_Forall2. eapply Forall2_impl; [| exact Hforms].
      intros v dF (V & HV & Hd). unfold grad_form, test_space.
      destruct HV as [[Hf ->] | (Hf & Hc & mesh & Hm & HV)].
      - rewrite Hf. simpl. rewrite Hd. reflexivity.
      - rewrite Hf, Hc, Hm. simpl. rewrite HV. simpl. rewrite Hd.
        reflexivity. }
    assert (E2 : mapM (fun form => call (assemble K form)) forms = Ok fgs).
    { apply mapM_Forall2. eapply Forall2_impl; [| exact Hfgs].
      intros dF fg Hc. simpl in Hc. rewrite Hc. reflexivity. }
    assert (E3 : mapM (jax_grad K g) fgs = Ok grads).
    { apply mapM_Forall2. eapply Forall2_impl; [| exact Hgrads].
      intros [t |] grad Hj; simpl.
      - destruct Hj as (a & p & Ha & Hp & ->). rewrite Ha. simpl.
        rewrite Hp. reflexivity.
      - subst grad. reflexivity. }
    rewrite E1. simpl. rewrite E2. simpl. exact E3.
Qed.

End ReverseMode.

Section UnsupportedInputs.

Context (K : Collaborators).

Lemma grad_form_Err (F : Form K) (v : FenicsVariable K) (e : exn) :
  grad_form K F v = Err e ->
  e = NotImplementedError \/ exists n, e = Raised n.
Proof.
  unfold grad_form, test_space.
  destruct (isinstance_Function K v); simpl.
  - destruct (derivative K F v _); simpl; intro H; [discriminate H |].
    injection H as <-. eauto.
  - destruct (isinstance_Constant K v); simpl.
    + destruct (ufl_domain_cargo K F) as [mesh |]; simpl.
      * destruct (new_FunctionSpace K mesh "Real" 0%Z) as [V |]; simpl.
        -- destruct (derivative K F v _); simpl; intro H; [discriminate H |].
           injection H as <-. eauto.
        -- intro H. injection H as <-. eauto.
      * intro H. injection H as <-. eauto.
    + intro H. injection H as <-. auto.
Qed.

Lemma grad_forms_unsupported (F : Form K) (ins : list (FenicsVariable K)) :
  Exists (fun v => supported K v = false) ins ->
  exists e, mapM (grad_form K F) ins = Err e.
Proof.
  induction 1 as [v rest Hv | v rest _ IH]; simpl.
  - apply (grad_form_NotImplemented K F) in Hv. rewrite Hv. simpl. eauto.
  - destruct (grad_form K F v) as [dF | e]; simpl; [| eauto].
    destruct IH as [e ->]. simpl. eauto.
Qed.

Lemma fill_zeros_Err (args : list ndarray) (grads : list (option ndarray))
  (i : nat) (e : exn) :
  fill_zeros args i grads = Err e -> e = IndexError.
Proof.
  revert i. induction grads as [| vjp rest IH]; intros i H; simpl in H;
    [discriminate H |].
  destruct vjp as [v |]; simpl in H.
  - destruct (fill_zeros args (S i) rest) eqn:E; simpl in H;
      [discriminate H |].
    injection H as <-. exact (IH _ E).
  - destruct (nth_error args i); simpl in H.
    + destruct (fill_zeros args (S i) rest) eqn:E; simpl in H;
        [discriminate H |].
      injection H as <-. exact (IH _ E).
    + injection H as <-. reflexivity.
Qed.

(** C7.  In the gradient computation, and so in the closure that runs it:
    an input that is neither a Function nor a Constant makes it fail with
    NotImplementedError as soon as the loop reaches it, that is, when the
    derivative forms of the inputs before it were built; with such an
    input among the inputs the computation never returns, and fails with
    NotImplementedError or with what a collaborator raised on an earlier
    input; and when every input is a Function or a Constant neither the
    computation nor the closure fails with NotImplementedError. *)
Theorem vjp_assemble_impl_NotImplemented (g : ndarray) (F : Form K)
  (ins : list (FenicsVariable K)) (args : list ndarray) :
  (forall pre v post forms,
     ins = pre ++ v :: post -> supported K v = false ->
     mapM (grad_form K F) pre = Ok forms ->
     vjp_assemble_impl K g F ins = Err NotImplementedError /\
     vjp_fun K args F ins g = Err NotImplementedError) /\
  (Exists (fun v => supported K v = false) ins ->
   exists e,
     vjp_assemble_impl K g F ins = Err e /\
     vjp_fun K args F ins g = Err e /\
     (e = NotImplementedError \/ exists n, e = Raised n)) /\
  (Forall (fun v => supported K v = true) ins ->
   vjp_assemble_impl K g F ins <> Err NotImplementedError /\
   vjp_fun K args F ins g <> Err NotImplementedError).
Proof.
  assert (Hall_ok : Forall (fun v => supported K v = true) ins ->
                    vjp_assemble_impl K g F ins <> Err NotImplementedError).
  { unfold vjp_assemble_impl. intros Hall H.
    destruct (mapM (grad_form K F) ins) as [forms | e] eqn:E1; simpl in H.
    + destruct (mapM (fun form => call (assemble K form)) forms)
        as [fgs | e] eqn:E2; simpl in H.
      * apply mapM_Err in H.
        destruct H as (pre & x & post & ys & _ & _ & Hx).
        exact (jax_grad_not_NotImplemented _ _ _ Hx).
      * injection H as ->. apply mapM_Err in E2.
        destruct E2 as (pre & x & post & ys & _ & _ & Hx).
        exact (call_not_NotImplemented _ Hx).
    + injection H as ->. apply mapM_Err in E1.
      destruct E1 as (pre & x & post & ys & -> & _ & Hx).
      apply grad_form_NotImplemented in Hx.
      rewrite Forall_forall in Hall.
      specialize (Hall x (in_elt x pre post)). congruence. }
  split; [| split].
  - intros pre v post forms -> Hv Hpre.
    apply (grad_form_NotImplemented K F) in Hv.
    unfold vjp_fun, vjp_assemble_impl.
    rewrite (mapM_Err_prefix _ _ post _ _ _ Hpre Hv). split; reflexivity.
  - intro Hex. destruct (grad_forms_unsupported F _ Hex) as [e He].
    unfold vjp_fun, vjp_assemble_impl.
    rewrite He. simpl. exists e. repeat split.
    apply mapM_Err in He. destruct He as (pre & x & post & ys & _ & _ & Hx).
    exact (grad_form_Err _ _ _ Hx).
  - intro Hall. split; [exact (Hall_ok Hall) |].
    unfold vjp_fun. intro H.
    destruct (vjp_assemble_impl K g F ins) as [grads | e] eqn:E; simpl in H.
    + apply fill_zeros_Err in H. discriminate H.
    + injection H as ->. exact (Hall_ok Hall eq_refl).
Qed.

End UnsupportedInputs.

(** Totality at work on two inputs, the second with an undefined
    gradient. *)
Lemma vjp_fun_total_witness :
  exists F ins,
    assemble_eval Toy.world Toy.good_function
      [Toy.constant_template; Toy.flat_template]
      [Toy.scalar Toy.three; Toy.scalar Toy.one] =
    Ok (Toy.scalar Toy.three, F, ins) /\
    forall g,
      match vjp_assemble_impl Toy.world g F ins with
      | Err e =>
          vjp_fun Toy.world [Toy.scalar Toy.three; Toy.scalar Toy.one] 7
            [Toy.AConstant (Toy.scalar Toy.three);
             Toy.AFunction 9 (Toy.scalar Toy.one)] g = Err e
      | Ok grads =>
          exists t,
            vjp_fun Toy.world [Toy.scalar Toy.three; Toy.scalar Toy.one] 7
              [Toy.AConstant (Toy.scalar Toy.three);
               Toy.AFunction 9 (Toy.scalar Toy.one)] g = Ok t /\
            length t = 2 /\
            forall i a,
              nth_error [Toy.scalar Toy.three; Toy.scalar Toy.one] i = Some a ->
              exists grad,
                nth_error grads i = Some grad /\
                nth_error t i =
                Some (match grad with
                      | Some v => v
                      | None => zeros_like_jaxval a
                      end) /\
                shape (zeros_like_jaxval a) = shape a /\
                Forall (fun x => x = 0%float) (data (zeros_like_jaxval a))
      end.
Proof.
  exact (vjp_fun_total Toy.world Toy.good_function
           [Toy.constant_template; Toy.flat_template]
           [Toy.scalar Toy.three; Toy.scalar Toy.one]
           (Toy.scalar Toy.three)
           (vjp_fun Toy.world [Toy.scalar Toy.three; Toy.scalar Toy.one] 7
              [Toy.AConstant (Toy.scalar Toy.three);
               Toy.AFunction 9 (Toy.scalar Toy.one)])
           eq_refl).
Defined.

(** The entries at work: a Constant, whose gradient is the cotangent 3
    times the assembled 2, and a Function whose derivative form assembles
    to [None]. *)
Lemma vjp_assemble_impl_entries_witness :
  vjp_assemble_impl Toy.world (Toy.scalar Toy.three) 7
    [Toy.AConstant (Toy.scalar Toy.three);
     Toy.AFunction 9 (Toy.scalar Toy.one)] =
  Ok [Some (Toy.scalar 6%float); None].
Proof.
  apply (proj2 (vjp_assemble_impl_entries Toy.world (Toy.scalar Toy.three) 7
                  [Toy.AConstant (Toy.scalar Toy.three);
                   Toy.AFunction 9 (Toy.scalar Toy.one)]
                  [Some (Toy.scalar 6%float); None])).
  exists [8; 0], [Some 2%float; None]. repeat split.
  - constructor; [| constructor; [| constructor]].
    + exists 0. split; [| reflexivity].
      right. repeat split. exists tt. split; reflexivity.
    + exists 9. split; [| reflexivity]. left. split; reflexivity.
  - constructor; [| constructor; [| constructor]]; reflexivity.
  - constructor; [| constructor; [| constructor]].
    + exists (Toy.scalar 2%float), (Toy.scalar 6%float).
      repeat split; reflexivity.
    + reflexivity.
Defined.

(** A Constant followed by an input of another kind. *)
Lemma vjp_assemble_impl_NotImplemented_witness :
  vjp_assemble_impl Toy.world (Toy.scalar Toy.three) 7
    [Toy.AConstant (Toy.scalar Toy.three); Toy.AnExpression] =
  Err NotImplementedError.
Proof.
  exact (proj1 (proj1
    (vjp_assemble_impl_NotImplemented Toy.world (Toy.scalar Toy.three) 7
       [Toy.AConstant (Toy.scalar Toy.three); Toy.AnExpression]
       [Toy.scalar Toy.three; Toy.scalar Toy.one])
    [Toy.AConstant (Toy.scalar Toy.three)] Toy.AnExpression [] [8]
    eq_refl eq_refl eq_refl)).
Defined.

(** ** The forward-mode sensitivity builder *)

Section ForwardMode.

Context (K : Collaborators).

Lemma accumulate_form (F A : Form K)
  (pairs : list (FenicsVariable K * FenicsVariable K)) (r : float + Form K) :
  accumulate K F (inr A) pairs = Ok r -> exists B, r = inr B.
Proof.
  revert A. induction pairs as [| [fp ft] rest IH]; intros A H; simpl in H.
  - injection H as <-. eauto.
  - destruct (derivative K F fp (Along ft)) as [d |]; simpl in H;
      [| discriminate H].
    destruct (form_add K A d) as [B |]; simpl in H; [| discriminate H].
    exact (IH B H).
Qed.

(** The running total is still a float after the loop only if the loop
    had nothing to go through. *)
Lemma accumulate_float (F : Form K) (x y : float)
  (pairs : list (FenicsVariable K * FenicsVariable K)) :
  accumulate K F (inl x) pairs = Ok (inl y) -> pairs = [] /\ y = x.
Proof.
  destruct pairs as [| [fp ft] rest]; simpl; intro H.
  - injection H as <-. auto.
  - exfalso.
    destruct (derivative K F fp (Along ft)) as [d |]; simpl in H;
      [| discriminate H].
    destruct (form_radd K d x) as [B |]; simpl in H; [| discriminate H].
    apply accumulate_form in H. destruct H as [B' H]. discriminate H.
Qed.

Variable fenics_function : user_function K.
Variable fenics_templates : list (FenicsVariable K).

(** C2, on the code.  When the forward evaluation of the primals succeeds
    and the tangents are converted, the accumulated tangent form is still
    the float zero exactly when there is no input, and then
    [jvp_assemble_eval] does not return the pair of the primal output and
    zero: it fails with UnboundLocalError, since [output_tangent] was
    never assigned. *)
Theorem jvp_zero_tangent_unbound (primals tangents : list ndarray)
  (out : ndarray) (F : Form K)
  (fenics_primals fenics_tangents : list (FenicsVariable K)) :
  assemble_eval K fenics_function fenics_templates primals =
  Ok (out, F, fenics_primals) ->
  convert_all_to_fenics K fenics_primals tangents = Ok fenics_tangents ->
  ((exists x,
      accumulate K F (inl 0%float) (combine fenics_primals fenics_tangents) =
      Ok (inl x)) <-> primals = []) /\
  ((exists x,
      accumulate K F (inl 0%float) (combine fenics_primals fenics_tangents) =
      Ok (inl x)) ->
   jvp_assemble_eval K fenics_function fenics_templates primals tangents =
   Err (UnboundLocalError "output_tangent")).
Proof.
  intros Heval Hconv.
  pose proof (assemble_eval_inputs_length _ _ _ _ _ _ _ Heval) as Hlen.
  pose proof (convert_all_to_fenics_length _ _ _ _ Hconv) as [_ Hlen'].
  split; [split |].
  - intros [x Hx]. apply accumulate_float in Hx. destruct Hx as [Hx _].
    destruct fenics_primals as [| p ps]; [| destruct fenics_tangents];
      simpl in *; try discriminate.
    destruct primals; [reflexivity | discriminate Hlen].
  - intros ->. destruct fenics_primals; [| discriminate Hlen].
    simpl. eauto.
  - intros [x Hx]. unfold jvp_assemble_eval.
    rewrite Heval. simpl. rewrite Hconv. simpl. rewrite Hx. reflexivity.
Qed.

(** C8.  Every mode goes through the forward evaluator.  The rule of plain
    evaluation is the first component of [assemble_eval].  If
    [assemble_eval] fails on the arguments, the reverse-mode and the
    forward-mode builders fail with the same exception.  If it returns
    [out], the reverse-mode builder returns [out] with its closure; the
    forward-mode builder, whenever it returns, returns [out] as the primal
    output, and it does return, with [out], when the tangents convert,
    the accumulated form expands and the expanded form assembles. *)
Theorem primal_output_is_assemble_eval (args : list ndarray) :
  impl_rule K fenics_templates fenics_function args =
  match assemble_eval K fenics_function fenics_templates args with
  | Ok (out, _, _) => Ok out
  | Err e => Err e
  end /\
  match assemble_eval K fenics_function fenics_templates args with
  | Err e =>
      vjp_assemble_eval K fenics_function fenics_templates args = Err e /\
      forall tangents,
        jvp_assemble_eval K fenics_function fenics_templates args tangents =
        Err e
  | Ok (out, F, ins) =>
      (exists vjp,
         vjp_assemble_eval K fenics_function fenics_templates args =
         Ok (out, vjp)) /\
      (forall tangents p t,
         jvp_assemble_eval K fenics_function fenics_templates args tangents =
         Ok (p, t) -> p = out) /\
      (forall tangents fenics_tangents A A' t,
         convert_all_to_fenics K ins tangents = Ok fenics_tangents ->
         accumulate K F (inl 0%float) (combine ins fenics_tangents) =
         Ok (inr A) ->
         expand_derivatives K A = Returns A' ->
         assemble K A' = Returns t ->
         jvp_assemble_eval K fenics_function fenics_templates args tangents =
         Ok (out, t))
  end.
Proof.
  unfold impl_rule, vjp_assemble_eval, jvp_assemble_eval.
  destruct (assemble_eval K fenics_function fenics_templates args)
    as [[[out F] ins] | e]; simpl.
  - split; [reflexivity |]. split; [eauto |]. split.
    + intros tangents p t H.
      apply bind_Ok in H. destruct H as (tins & _ & H).
      apply bind_Ok in H. destruct H as (acc & _ & H).
      apply bind_Ok in H. destruct H as (bound & _ & H).
      apply bind_Ok in H. destruct H as (t' & _ & H).
      injection H as <- _. reflexivity.
    + intros tangents tins A A' t Hc Ha He Hs.
      rewrite Hc. simpl. rewrite Ha. simpl. rewrite He. simpl.
      rewrite Hs. reflexivity.
  - auto.
Qed.

End ForwardMode.

(** The forward-mode builder without inputs. *)
Lemma jvp_zero_tangent_unbound_witness :
  jvp_assemble_eval Toy.world Toy.good_function [] [] [] =
  Err (UnboundLocalError "output_tangent").
Proof.
  apply (proj2 (jvp_zero_tangent_unbound Toy.world Toy.good_function
                  [] [] [] (Toy.scalar Toy.three) 7 [] []
                  eq_refl eq_refl)).
  exists 0%float. reflexivity.
Defined.

(** The forward-mode builder on one input returns the primal output of
    the forward evaluator. *)
Lemma primal_output_is_assemble_eval_witness :
  jvp_assemble_eval Toy.world Toy.good_function [Toy.constant_template]
    [Toy.scalar Toy.three] [Toy.scalar Toy.one] =
  Ok (Toy.scalar Toy.three, Some 2%float).
Proof.
  exact (proj2 (proj2 (proj2
    (primal_output_is_assemble_eval Toy.world Toy.good_function
       [Toy.constant_template] [Toy.scalar Toy.three])))
    [Toy.scalar Toy.one] [Toy.AConstant (Toy.scalar Toy.one)] 8 8
    (Some 2%float) eq_refl eq_refl eq_refl eq_refl).
Defined.

(** ** The primitive registrar *)

Section Registration.

Context (K : Collaborators).

Lemma rules_of_fresh (s : jax_state K) :
  consistent s -> rules_of (next_identity s) s = [].
Proof.
  unfold consistent, rules_of. intro H.
  induction (registered s) as [| e l IH]; simpl; [reflexivity |].
  inversion H as [| e' l' He Hl]; subst.
  destruct (Nat.eqb_spec (fst e) (next_identity s)) as [E | _]; [lia |].
  exact (IH Hl).
Qed.

(** C9.  In a consistent state of JAX, the decorator takes a fresh
    identity, one no rule was keyed by, and after it exactly four rules
    are keyed by that identity: a plain evaluation, an abstract
    evaluation, a batched evaluation and a reverse-mode derivative, in
    this order.  Whatever the decorator added to the registries, on this
    identity or another, is no forward-mode rule. *)
Theorem build_registers_four_behaviours
  (fenics_templates : list (FenicsVariable K))
  (fenics_function : user_function K) (s : jax_state K) :
  consistent s ->
  let built := build_jax_assemble_eval K fenics_templates fenics_function s in
  binds (fst built) = next_identity s /\
  rules_of (binds (fst built)) s = [] /\
  map behaviour_of (rules_of (binds (fst built)) (snd built)) =
  [Evaluation; AbstractEvaluation; BatchedEvaluation; ReverseDerivative] /\
  exists added,
    registered (snd built) = registered s ++ added /\
    Forall (fun e => behaviour_of (snd e) <> ForwardDerivative) added.
Proof.
  intro Hs. simpl. repeat split.
  - apply rules_of_fresh. exact Hs.
  - assert (Hnext : Nat.eqb (S (next_identity s)) (next_identity s) = false)
      by (apply Nat.eqb_neq; lia).
    pose proof (rules_of_fresh s Hs) as Hfresh.
    unfold rules_of in *.
    cbn [build_jax_assemble_eval new_Primitive register registered
         next_identity identity fst snd binds].
    repeat rewrite <- app_assoc. cbn [app].
    rewrite filter_app, map_app, Hfresh.
    cbn [filter fst app]. rewrite Nat.eqb_refl, Hnext. reflexivity.
  - eexists. split.
    + simpl. repeat rewrite <- app_assoc. simpl. reflexivity.
    + repeat constructor; discriminate.
Qed.

End Registration.

(** The decorator on the empty state: identity 0 gets the four rules,
    identity 1 the evaluation rule of the second primitive. *)
Lemma build_registers_four_behaviours_witness :
  map (fun e => (fst e, behaviour_of (snd e)))
    (registered
       (snd (build_jax_assemble_eval Toy.world [Toy.constant_template]
               Toy.good_function Toy.empty_state))) =
  [(0, Evaluation); (0, AbstractEvaluation); (0, BatchedEvaluation);
   (1, Evaluation); (0, ReverseDerivative)] /\
  map behaviour_of
    (rules_of 0
       (snd (build_jax_assemble_eval Toy.world [Toy.constant_template]
               Toy.good_function Toy.empty_state))) =
  [Evaluation; AbstractEvaluation; BatchedEvaluation; ReverseDerivative].
Proof.
  split; [reflexivity |].
  exact (proj1 (proj2 (proj2
    (build_registers_four_behaviours Toy.world [Toy.constant_template]
       Toy.good_function Toy.empty_state (Forall_nil _))))).
Defined.

(** ** The batched-evaluation rule *)

Section BatchAxes.

Context (K : Collaborators).

Variable fenics_templates : list (FenicsVariable K).
Variable fenics_function : user_function K.

Lemma nodup_one (l : list (option Z)) (a : option Z) :
  nodup axis_eq_dec l = [a] <-> l <> [] /\ forall x, In x l -> x = a.
Proof.
  split.
  - intro H. split.
    + intros ->. discriminate H.
    + intros x Hx. apply (nodup_In axis_eq_dec) in Hx. rewrite H in Hx.
      destruct Hx as [<- | []]. reflexivity.
  - intros [Hne Hall]. induction l as [| x rest IH]; [contradiction |].
    assert (x = a) by (apply Hall; left; reflexivity). subst x.
    simpl. destruct rest as [| y rest'].
    + reflexivity.
    + destruct (in_dec axis_eq_dec a (y :: rest')) as [_ | Hn].
      * apply IH; [discriminate |]. intros z Hz. apply Hall. right. exact Hz.
      * exfalso. apply Hn. left. apply Hall. right. left. reflexivity.
Qed.

Lemma convert_each_Err (templates : list (FenicsVariable K))
  (arrays : list ndarray) (e : exn) :
  convert_each K templates arrays = Err e -> exists n, e = Raised n.
Proof.
  revert arrays. induction templates as [| t ts IH]; intros [| a rest];
    simpl; try discriminate.
  destruct (numpy_to_fenics K a t) as [v | n]; simpl.
  - destruct (convert_each K ts rest) as [vs | e'] eqn:E; simpl;
      [discriminate |].
    intro H. injection H as <-. exact (IH rest E).
  - intro H. injection H as <-. eauto.
Qed.

Lemma assemble_eval_not_Assertion (args : list ndarray) :
  assemble_eval K fenics_function fenics_templates args <> Err AssertionError.
Proof.
  unfold assemble_eval, check_input, convert_all_to_fenics.
  destruct (Nat.eqb (length args) (length fenics_templates)); simpl;
    [| discriminate].
  destruct (shapes_match K fenics_templates args); simpl; [| discriminate].
  destruct (convert_each K fenics_templates args) as [ins | e] eqn:E; simpl.
  - destruct (fenics_function ins) as [out |]; simpl; [| discriminate].
    destruct out; try discriminate.
    destruct items as [| a [| b [| c items]]]; try discriminate. simpl.
    destruct (isinstance_tuple a); [discriminate |].
    destruct (as_float K a); [| discriminate].
    destruct (as_Form K b); discriminate.
  - apply convert_each_Err in E. destruct E as [n ->]. discriminate.
Qed.

(** What the rule does once its two assertions have passed. *)
Lemma batch_body_not_Assertion (vector_arg_values : list ndarray)
  (axis0 : option Z) :
  (iterables <- mapM iter_rows vector_arg_values ;;
   arguments <- map_arguments iterables ;;
   res <- mapM (jax_assemble_eval K fenics_templates fenics_function)
            arguments ;;
   res <- asarray_list res ;;
   Ok (res, axis0)) <> Err AssertionError.
Proof.
  destruct (mapM iter_rows vector_arg_values) as [its | e] eqn:E1; simpl.
  - destruct its as [| l its]; simpl; [discriminate |].
    destruct (mapM _ (zip_upto (length l) (l :: its))) as [res | e] eqn:E2;
      simpl.
    + destruct res as [| r res]; [discriminate |].
      unfold asarray_list.
      destruct (forallb (fun x => shape_eqb (shape x) (shape r)) (r :: res));
        discriminate.
    + intro H. injection H as ->. apply mapM_Err in E2.
      destruct E2 as (pre & x & post & ys & _ & _ & Hx).
      unfold jax_assemble_eval, impl_rule in Hx.
      destruct (assemble_eval K fenics_function fenics_templates x)
        as [r |] eqn:E3; simpl in Hx; [discriminate Hx |].
      injection Hx as ->. exact (assemble_eval_not_Assertion _ E3).
  - intro H. injection H as ->. apply mapM_Err in E1.
    destruct E1 as (pre & x & post & ys & _ & _ & Hx).
    unfold iter_rows in Hx. destruct (shape x); discriminate Hx.
Qed.

(** With a common batch axis 0 both assertions pass, and the rule is the
    evaluation of its body. *)
Lemma jax_assemble_eval_batch_passed (vector_arg_values : list ndarray)
  (batch_axes : list (option Z)) :
  batch_axes <> [] ->
  (forall a, In a batch_axes -> a = Some 0%Z) ->
  jax_assemble_eval_batch K fenics_templates fenics_function
    vector_arg_values batch_axes =
  (iterables <- mapM iter_rows vector_arg_values ;;
   arguments <- map_arguments iterables ;;
   res <- mapM (jax_assemble_eval K fenics_templates fenics_function)
            arguments ;;
   res <- asarray_list res ;;
   Ok (res, Some 0%Z)).
Proof.
  intros Hne Hall. unfold jax_assemble_eval_batch.
  rewrite (proj2 (nodup_one batch_axes (Some 0%Z)) (conj Hne Hall)).
  destruct batch_axes as [| a rest]; [contradiction |].
  cbn [length Nat.eqb py_assert bind nth_error].
  rewrite (Hall a (or_introl eq_refl)). reflexivity.
Qed.

(** C6.  The assertions of the batched-evaluation rule.  If two of the
    batch axes differ, the rule fails with AssertionError.  If the
    arguments have a common batch axis and it is not 0, the rule fails
    with AssertionError.  If the arguments have a common batch axis and it
    is 0, no assertion fires: the rule does not fail with AssertionError
    and is the evaluation of its body.  (A common batch axis takes an
    argument to have it: with no batch axes at all the first assertion
    fires.) *)
Theorem batch_axes_assertions (vector_arg_values : list ndarray)
  (batch_axes : list (option Z)) :
  ((exists a b, In a batch_axes /\ In b batch_axes /\ a <> b) ->
   jax_assemble_eval_batch K fenics_templates fenics_function
     vector_arg_values batch_axes = Err AssertionError) /\
  (forall c, batch_axes <> [] -> (forall a, In a batch_axes -> a = c) ->
   c <> Some 0%Z ->
   jax_assemble_eval_batch K fenics_templates fenics_function
     vector_arg_values batch_axes = Err AssertionError) /\
  (batch_axes <> [] -> (forall a, In a batch_axes -> a = Some 0%Z) ->
   jax_assemble_eval_batch K fenics_templates fenics_function
     vector_arg_values batch_axes <> Err AssertionError /\
   jax_assemble_eval_batch K fenics_templates fenics_function
     vector_arg_values batch_axes =
   (iterables <- mapM iter_rows vector_arg_values ;;
    arguments <- map_arguments iterables ;;
    res <- mapM (jax_assemble_eval K fenics_templates fenics_function)
             arguments ;;
    res <- asarray_list res ;;
    Ok (res, Some 0%Z))) /\
  (batch_axes = [] ->
   jax_assemble_eval_batch K fenics_templates fenics_function
     vector_arg_values batch_axes = Err AssertionError).
Proof.
  split; [| split; [| split]].
  - intros (a & b & Ha & Hb & Hab). unfold jax_assemble_eval_batch.
    destruct (nodup axis_eq_dec batch_axes) as [| c [| d l]] eqn:E;
      try reflexivity.
    exfalso. apply nodup_one in E. destruct E as [_ Hall].
    apply Hab. rewrite (Hall a Ha), (Hall b Hb). reflexivity.
  - intros c Hne Hall Hc. unfold jax_assemble_eval_batch.
    rewrite (proj2 (nodup_one batch_axes c) (conj Hne Hall)).
    destruct batch_axes as [| a rest]; [contradiction |].
    cbn [length Nat.eqb py_assert bind nth_error].
    rewrite (Hall a (or_introl eq_refl)).
    unfold axis_eqb. destruct (axis_eq_dec c (Some 0%Z)); [contradiction |].
    reflexivity.
  - intros Hne Hall.
    pose proof (jax_assemble_eval_batch_passed vector_arg_values _ Hne Hall)
      as Hpass.
    split; [| exact Hpass].
    rewrite Hpass. apply batch_body_not_Assertion.
  - intros ->. reflexivity.
Qed.

End BatchAxes.

Section Batching.

Lemma firstn_skipn_app (d r : list float) :
  firstn (length d) (d ++ r) = d /\ skipn (length d) (d ++ r) = r.
Proof.
  induction d as [| x d [IH1 IH2]]; simpl; [auto |].
  rewrite IH1. auto.
Qed.

Lemma chunks_concat (m : nat) (l : list (list float)) :
  Forall (fun d => length d = m) l ->
  chunks (length l) m (concat l) = l.
Proof.
  induction 1 as [| d l Hd _ IH]; simpl; [reflexivity |].
  subst m. destruct (firstn_skipn_app d (concat l)) as [-> ->].
  rewrite IH. reflexivity.
Qed.

(** Iterating over a stack gives back the arrays that were stacked. *)
Lemma iter_rows_stack (s : list nat) (l : list ndarray) :
  Forall (fun a => shape a = s /\ well_shaped a) l ->
  iter_rows (stack s l) = Ok l.
Proof.
  intro H. unfold iter_rows, stack. simpl. f_equal.
  rewrite <- (length_map data l), chunks_concat.
  - rewrite map_map. induction H as [| a l [Hs _] _ IH]; simpl;
      [reflexivity |].
    rewrite IH. destruct a as [sa da]. simpl in Hs. subst sa. reflexivity.
  - apply Forall_map. eapply Forall_impl; [| exact H].
    intros a [Hs Hw]. unfold well_shaped in Hw. congruence.
Qed.

Lemma heads_map_cons {A J : Type} (g : J -> A) (h : J -> list A)
  (js : list J) :
  heads (map (fun j => g j :: h j) js) = Some (map g js) /\
  map (@tl A) (map (fun j => g j :: h j) js) = map h js.
Proof.
  induction js as [| j js [IH1 IH2]]; simpl; [auto |].
  rewrite IH1, IH2. auto.
Qed.

Lemma map_nth_seq {A : Type} (d : A) (l : list A) :
  map (fun j => nth j l d) (seq 0 (length l)) = l.
Proof.
  induction l as [| a l IH]; simpl; [reflexivity |].
  rewrite <- seq_shift, map_map. simpl. rewrite IH. reflexivity.
Qed.

(** Zipping the columns of a table gives back its rows. *)
Lemma zip_upto_columns {A : Type} (d : A) (k : nat) (rows : list (list A)) :
  Forall (fun row => length row = k) rows ->
  zip_upto (length rows)
    (map (fun j => map (fun row => nth j row d) rows) (seq 0 k)) = rows.
Proof.
  induction 1 as [| row rows Hrow _ IH]; simpl; [reflexivity |].
  destruct (heads_map_cons (fun j => nth j row d)
              (fun j => map (fun r => nth j r d) rows) (seq 0 k))
    as [-> ->].
  rewrite IH. subst k. rewrite map_nth_seq. reflexivity.
Qed.

Lemma mapM_map_Ok {A B J : Type} (f : A -> result B) (g : J -> A)
  (h : J -> B) (js : list J) :
  (forall j, In j js -> f (g j) = Ok (h j)) ->
  mapM f (map g js) = Ok (map h js).
Proof.
  induction js as [| j js IH]; simpl; intro H; [reflexivity |].
  rewrite (H j (or_introl eq_refl)). simpl.
  rewrite IH; [reflexivity |]. intros j' Hj'. apply H. right. exact Hj'.
Qed.

Lemma Forall2_nth {A B : Type} (R : A -> B -> Prop) (l : list A)
  (l' : list B) (da : A) (db : B) :
  Forall2 R l l' -> forall j, j < length l' -> R (nth j l da) (nth j l' db).
Proof.
  induction 1 as [| a b l l' Hab _ IH]; simpl; intros j Hj; [lia |].
  destruct j as [| j]; [exact Hab |]. apply IH. lia.
Qed.

Lemma Forall2_length_eq {A B : Type} (R : A -> B -> Prop) (l : list A)
  (l' : list B) :
  Forall2 R l l' -> length l = length l'.
Proof. induction 1; simpl; congruence. Qed.

(** The rule iterates over stacked argument sets set by set. *)
Lemma map_arguments_stacked (shapes : list (list nat))
  (argsets : list (list ndarray)) :
  shapes <> [] ->
  Forall (fun set =>
            Forall2 (fun a s => shape a = s /\ well_shaped a) set shapes)
         argsets ->
  (iterables <- mapM iter_rows (stack_arguments shapes argsets) ;;
   map_arguments iterables) = Ok argsets.
Proof.
  intros Hne Hsets. unfold stack_arguments.
  rewrite (mapM_map_Ok iter_rows _
             (fun j => map (fun set => nth j set (mk_ndarray [] [])) argsets)).
  - simpl. destruct shapes as [| s0 shapes']; [contradiction |].
    cbn [length seq map map_arguments]. f_equal.
    rewrite length_map.
    change (map (fun set => nth 0 set (mk_ndarray [] [])) argsets
            :: map (fun j => map (fun set => nth j set (mk_ndarray [] []))
                               argsets)
                 (seq 1 (length shapes')))
      with (map (fun j => map (fun set => nth j set (mk_ndarray [] []))
                            argsets)
              (seq 0 (length (s0 :: shapes')))).
    apply zip_upto_columns.
    eapply Forall_impl; [| exact Hsets].
    intros set H. exact (Forall2_length_eq _ _ _ H).
  - intros j Hj. apply in_seq in Hj. apply iter_rows_stack.
    apply Forall_map. eapply Forall_impl; [| exact Hsets].
    intros set H. apply (Forall2_nth _ _ _ (mk_ndarray [] []) [] H). lia.
Qed.

End Batching.

Section BatchedEvaluation.

Context (K : Collaborators).

Variable fenics_templates : list (FenicsVariable K).
Variable fenics_function : user_function K.

(** Plain evaluation returns a 0-d array. *)
Lemma jax_assemble_eval_scalar (args : list ndarray) (out : ndarray) :
  jax_assemble_eval K fenics_templates fenics_function args = Ok out ->
  shape out = [].
Proof.
  unfold jax_assemble_eval, impl_rule. intro H.
  apply bind_Ok in H. destruct H as ([[o F] ins] & Heval & H).
  injection H as <-. apply assemble_eval_Ok in Heval.
  destruct Heval as (_ & _ & a & b & x & _ & _ & _ & ->). reflexivity.
Qed.

Lemma asarray_list_scalars (outs : list ndarray) :
  Forall (fun o => shape o = []) outs ->
  asarray_list outs = Ok (stack [] outs).
Proof.
  intro H. destruct outs as [| r outs]; [reflexivity |].
  unfold asarray_list.
  assert (Hr : shape r = []) by (inversion H; assumption).
  rewrite Hr.
  replace (forallb (fun x => shape_eqb (shape x) []) (r :: outs)) with true;
    [reflexivity |].
  symmetry. apply forallb_forall. intros x Hx.
  rewrite Forall_forall in H. rewrite (H x Hx). reflexivity.
Qed.

(** C5.  Take N argument sets, each with one array per position, of the
    shape the position has, and stack them along axis 0 position by
    position.  On these stacked arguments, all with batch axis 0, the
    batched-evaluation rule gives what N plain evaluations give, one per
    argument set in the order of the sets: if one of them fails, its
    exception (of the first that fails); otherwise the N results stacked
    along axis 0 in the same order, with 0 as the batch axis of the
    output. *)
Theorem batch_is_stack_of_evaluations (shapes : list (list nat))
  (argsets : list (list ndarray)) :
  shapes <> [] ->
  Forall (fun set =>
            Forall2 (fun a s => shape a = s /\ well_shaped a) set shapes)
         argsets ->
  jax_assemble_eval_batch K fenics_templates fenics_function
    (stack_arguments shapes argsets) (map (fun _ => Some 0%Z) shapes) =
  match mapM (jax_assemble_eval K fenics_templates fenics_function) argsets with
  | Ok outs => Ok (stack [] outs, Some 0%Z)
  | Err e => Err e
  end.
Proof.
  intros Hne Hsets.
  rewrite jax_assemble_eval_batch_passed.
  - pose proof (map_arguments_stacked _ _ Hne Hsets) as Hargs.
    destruct (mapM iter_rows (stack_arguments shapes argsets))
      as [iterables |]; simpl in Hargs; [| discriminate Hargs].
    simpl. rewrite Hargs. simpl.
    destruct (mapM (jax_assemble_eval K fenics_templates fenics_function)
                argsets) as [outs | e] eqn:E; simpl; [| reflexivity].
    rewrite asarray_list_scalars; [reflexivity |].
    apply mapM_Forall2 in E. clear - E.
    induction E as [| set out sets outs Hout _ IH]; constructor;
      [| exact IH].
    exact (jax_assemble_eval_scalar _ _ Hout).
  - destruct shapes; [contradiction | discriminate].
  - intros a Ha. apply in_map_iff in Ha. destruct Ha as (s & <- & _).
    reflexivity.
Qed.

End BatchedEvaluation.

(** A mapped and an unmapped argument are refused; one argument mapped
    along axis 0 is evaluated row by row. *)
Lemma batch_axes_assertions_witness :
  jax_assemble_eval_batch Toy.world
    [Toy.constant_template; Toy.constant_template] Toy.good_function
    [mk_ndarray [2] [Toy.one; Toy.three]; Toy.scalar Toy.one]
    [Some 0%Z; None] = Err AssertionError /\
  jax_assemble_eval_batch Toy.world [Toy.constant_template] Toy.read_first
    [mk_ndarray [2] [Toy.one; Toy.three]] [Some 0%Z] =
  Ok (mk_ndarray [2] [Toy.one; Toy.three], Some 0%Z).
Proof.
  split.
  - apply (proj1 (batch_axes_assertions Toy.world
                    [Toy.constant_template; Toy.constant_template]
                    Toy.good_function
                    [mk_ndarray [2] [Toy.one; Toy.three]; Toy.scalar Toy.one]
                    [Some 0%Z; None])).
    exists (Some 0%Z), None. repeat split.
    + left. reflexivity.
    + right. left. reflexivity.
    + discriminate.
  - reflexivity.
Defined.

(** Two argument sets of one scalar each. *)
Lemma batch_is_stack_of_evaluations_witness :
  jax_assemble_eval_batch Toy.world [Toy.constant_template] Toy.read_first
    (stack_arguments [[]] [[Toy.scalar Toy.one]; [Toy.scalar Toy.three]])
    [Some 0%Z] =
  Ok (stack [] [Toy.scalar Toy.one; Toy.scalar Toy.three], Some 0%Z).
Proof.
  apply (batch_is_stack_of_evaluations Toy.world [Toy.constant_template]
           Toy.read_first [[]]
           [[Toy.scalar Toy.one]; [Toy.scalar Toy.three]]).
  - discriminate.
  - repeat constructor.
Defined.

(** ** Worked examples on the small instance *)

Example forward_evaluation_of_a_float_and_a_form :
  assemble_eval Toy.world Toy.good_function [Toy.constant_template]
    [Toy.scalar Toy.three] =
  Ok (Toy.scalar Toy.three, 7, [Toy.AConstant (Toy.scalar Toy.three)]).
Proof. reflexivity. Qed.

Example two_floats_are_rejected :
  assemble_eval Toy.world Toy.two_floats [Toy.constant_template]
    [Toy.scalar Toy.three] =
  Err (ValueError
         "FEniCS function output should be in the form (assembly_output, ufl_form). Got <class 'float'> instead of ufl.Form").
Proof. reflexivity. Qed.

Example tuple_first_is_rejected :
  assemble_eval Toy.world Toy.tuple_and_form [Toy.constant_template]
    [Toy.scalar Toy.three] =
  Err (ValueError
         "Only single solution output from FEniCS function is supported.").
Proof. reflexivity. Qed.

Example wrong_argument_count_is_rejected :
  assemble_eval Toy.world Toy.good_function [Toy.constant_template] [] =
  Err TypeCheckError.
Proof. reflexivity. Qed.

(** The gradient with respect to the second input is [None] and comes
    back as a zero of the shape of the second argument. *)
Example closure_fills_in_zeros :
  (r <- vjp_assemble_eval Toy.world Toy.good_function
          [Toy.constant_template;
           Toy.AFunction 9 (mk_ndarray [2] [Toy.three; Toy.three])]
          [Toy.scalar Toy.three; mk_ndarray [2] [Toy.one; Toy.one]] ;;
   snd r (Toy.scalar Toy.three)) =
  Ok [Toy.scalar 6%float; mk_ndarray [2] [0%float; 0%float]].
Proof. reflexivity. Qed.

Example forward_mode_with_one_input :
  jvp_assemble_eval Toy.world Toy.good_function [Toy.constant_template]
    [Toy.scalar Toy.three] [Toy.scalar Toy.one] =
  Ok (Toy.scalar Toy.three, Some 2%float).
Proof. reflexivity. Qed.

Example batch_axis_one_is_refused :
  jax_assemble_eval_batch Toy.world [Toy.constant_template] Toy.read_first
    [mk_ndarray [2] [Toy.one; Toy.three]] [Some 1%Z] = Err AssertionError.
Proof. reflexivity. Qed.

(** * Further properties of the module *)

(** ** The forward evaluator: outputs and failures *)

Lemma mapM_app {A B : Type} (f : A -> result B) (xs xs' : list A)
  (ys : list B) :
  mapM f (xs ++ xs') = Ok ys <->
  exists zs zs', ys = zs ++ zs' /\ mapM f xs = Ok zs /\ mapM f xs' = Ok zs'.
Proof.
  split.
  - intro H. apply mapM_Forall2 in H. apply Forall2_app_inv_l in H.
    destruct H as (zs & zs' & H1 & H2 & ->).
    exists zs, zs'. repeat split; apply mapM_Forall2; assumption.
  - intros (zs & zs' & -> & H1 & H2). apply mapM_Forall2.
    apply Forall2_app; apply mapM_Forall2; assumption.
Qed.

Section ForwardFailures.

Context (K : Collaborators).

Variable fenics_function : user_function K.
Variable fenics_templates : list (FenicsVariable K).
Variable args : list ndarray.

(** The kinds of exception the forward evaluation can end with. *)
Lemma assemble_eval_Err_kind (e : exn) :
  assemble_eval K fenics_function fenics_templates args = Err e ->
  e = TypeCheckError \/ (exists n, e = Raised n) \/
  (exists msg, e = ValueError msg).
Proof.
  unfold assemble_eval, check_input, convert_all_to_fenics.
  destruct (Nat.eqb (length args) (length fenics_templates)); simpl;
    [| intro H; injection H as <-; auto].
  destruct (shapes_match K fenics_templates args); simpl;
    [| intro H; injection H as <-; auto].
  destruct (convert_each K fenics_templates args) as [ins | e'] eqn:E; simpl.
  - destruct (fenics_function ins) as [out | n]; simpl;
      [| intro H; injection H as <-; eauto].
    destruct out; try (intro H; injection H as <-; eauto).
    destruct items as [| a [| b [| c items]]]; simpl;
      try (intro H; injection H as <-; eauto).
    destruct (isinstance_tuple a); [intro H; injection H as <-; eauto |].
    destruct (as_float K a); [| intro H; injection H as <-; eauto].
    destruct (as_Form K b); [discriminate | intro H; injection H as <-; eauto].
  - intro H. injection H as <-.
    apply convert_each_Err in E. destruct E as [n ->]. eauto.
Qed.

(** X1.  Whatever way the forward value is obtained (by [assemble_eval],
    by the rule of plain evaluation, or as the primal output of the
    reverse-mode or the forward-mode builder), it is a 0-d array: its
    shape is empty and it holds exactly one entry. *)
Theorem forward_value_is_scalar (out : ndarray) :
  (forall F ins,
     assemble_eval K fenics_function fenics_templates args = Ok (out, F, ins) ->
     shape out = [] /\ length (data out) = 1) /\
  (impl_rule K fenics_templates fenics_function args = Ok out ->
   shape out = [] /\ length (data out) = 1) /\
  (forall vjp,
     vjp_assemble_eval K fenics_function fenics_templates args =
     Ok (out, vjp) ->
     shape out = [] /\ length (data out) = 1) /\
  (forall tangents t,
     jvp_assemble_eval K fenics_function fenics_templates args tangents =
     Ok (out, t) ->
     shape out = [] /\ length (data out) = 1).
Proof.
  assert (Hs : forall F ins,
             assemble_eval K fenics_function fenics_templates args =
             Ok (out, F, ins) ->
             shape out = [] /\ length (data out) = 1).
  { intros F ins H. apply assemble_eval_Ok in H.
    destruct H as (_ & _ & a & b & x & _ & _ & _ & ->). split; reflexivity. }
  split; [exact Hs |]. split; [| split].
  - unfold impl_rule. intro H.
    apply bind_Ok in H. destruct H as ([[o F] ins] & Heval & H).
    injection H as <-. exact (Hs F ins Heval).
  - unfold vjp_assemble_eval. intros vjp H.
    apply bind_Ok in H. destruct H as ([[o F] ins] & Heval & H).
    injection H as <- _. exact (Hs F ins Heval).
  - unfold jvp_assemble_eval. intros tangents t H.
    apply bind_Ok in H. destruct H as ([[o F] ins] & Heval & H).
    apply bind_Ok in H. destruct H as (tins & _ & H).
    apply bind_Ok in H. destruct H as (acc & _ & H).
    apply bind_Ok in H. destruct H as (bound & _ & H).
    apply bind_Ok in H. destruct H as (t' & _ & H).
    injection H as <- _. exact (Hs F ins Heval).
Qed.

(** X2.  A tuple that does not have exactly two elements is rejected by
    the unpacking itself, whatever its elements are (a float and a form
    followed by a third element included): the call fails with a
    ValueError whose message is Python's message about unpacking and none
    of the messages of the module. *)
Theorem assemble_eval_wrong_arity (ins : list (FenicsVariable K))
  (items : list (pyval (Form K))) :
  check_input K fenics_templates args = Ok tt ->
  convert_all_to_fenics K fenics_templates args = Ok ins ->
  fenics_function ins = Returns (PyTuple items) ->
  length items <> 2 ->
  exists msg,
    assemble_eval K fenics_function fenics_templates args =
    Err (ValueError msg) /\
    contains "values to unpack (expected 2" msg = true /\
    contains "FEniCS" msg = false.
Proof.
  intros Hc Hv Hf Hlen.
  rewrite (assemble_eval_returned K _ _ _ _ _ Hc Hv Hf).
  destruct items as [| a [| b [| c items]]]; simpl.
  - eexists. repeat split.
  - eexists. repeat split.
  - contradiction Hlen. reflexivity.
  - eexists. repeat split.
Qed.

(** X3.  The forward evaluation ends in one of three kinds of failure
    only, each with its cause: a TypeCheckError, exactly from the check of
    the arguments against the templates; an exception raised by a
    collaborator, passed on unchanged; or a ValueError, only after the
    inputs were converted and the user function returned a value.  It
    raises no AssertionError, NotImplementedError, IndexError, TypeError
    or UnboundLocalError. *)
Theorem assemble_eval_failures (e : exn) :
  assemble_eval K fenics_function fenics_templates args = Err e ->
  (e = TypeCheckError /\
   check_input K fenics_templates args = Err TypeCheckError) \/
  (exists n, e = Raised n /\ check_input K fenics_templates args = Ok tt) \/
  (exists msg ins out,
     e = ValueError msg /\
     check_input K fenics_templates args = Ok tt /\
     convert_all_to_fenics K fenics_templates args = Ok ins /\
     fenics_function ins = Returns out).
Proof.
  unfold assemble_eval.
  destruct (check_input K fenics_templates args) as [[] | e'] eqn:Hc; simpl.
  - destruct (convert_all_to_fenics K fenics_templates args)
      as [ins | e'] eqn:Hv; simpl.
    + destruct (fenics_function ins) as [out | n] eqn:Hf; simpl.
      * intro H. right. right.
        assert (Hm : exists msg, e = ValueError msg).
        { destruct out; try (injection H as <-; eauto).
          destruct items as [| a [| b [| c items]]]; simpl in H;
            try (injection H as <-; eauto).
          destruct (isinstance_tuple a); [injection H as <-; eauto |].
          destruct (as_float K a); [| injection H as <-; eauto].
          destruct (as_Form K b); [discriminate H | injection H as <-; eauto]. }
        destruct Hm as [msg ->]. exists msg, ins, out. auto.
      * intro H. injection H as <-. right. left. eauto.
    + intro H. injection H as <-. right. left.
      unfold convert_all_to_fenics in Hv. unfold check_input in Hc.
      destruct (Nat.eqb (length args) (length fenics_templates)); simpl in *;
        [| discriminate Hc].
      apply convert_each_Err in Hv. destruct Hv as [n ->]. eauto.
  - intro H. injection H as <-. left.
    unfold check_input in *.
    destruct (negb (Nat.eqb (length args) (length fenics_templates)));
      [injection Hc as <-; auto |].
    destruct (negb (shapes_match K fenics_templates args));
      [injection Hc as <-; auto | discriminate Hc].
Qed.

End ForwardFailures.

(** The forward value of the small instance is a scalar. *)
Lemma forward_value_is_scalar_witness :
  shape (Toy.scalar Toy.three) = [] /\
  length (data (Toy.scalar Toy.three)) = 1.
Proof.
  exact (proj1 (forward_value_is_scalar Toy.world Toy.good_function
                  [Toy.constant_template] [Toy.scalar Toy.three]
                  (Toy.scalar Toy.three))
           7 [Toy.AConstant (Toy.scalar Toy.three)] eq_refl).
Defined.

(** A float, a form and a third value. *)
Lemma assemble_eval_wrong_arity_witness :
  exists msg,
    assemble_eval Toy.world Toy.three_values [Toy.constant_template]
      [Toy.scalar Toy.three] = Err (ValueError msg) /\
    contains "values to unpack (expected 2" msg = true /\
    contains "FEniCS" msg = false.
Proof.
  apply (assemble_eval_wrong_arity Toy.world Toy.three_values
           [Toy.constant_template] [Toy.scalar Toy.three]
           [Toy.AConstant (Toy.scalar Toy.three)]
           [PyFloat Toy.three; PyForm 7; PyNone] eq_refl eq_refl eq_refl).
  discriminate.
Defined.

(** A user function that raises: its exception comes out unchanged. *)
Lemma assemble_eval_failures_witness :
  (Raised "RuntimeError" = TypeCheckError /\
   check_input Toy.world [Toy.constant_template] [Toy.scalar Toy.three] =
   Err TypeCheckError) \/
  (exists n,
     Raised "RuntimeError" = Raised n /\
     check_input Toy.world [Toy.constant_template] [Toy.scalar Toy.three] =
     Ok tt) \/
  (exists msg ins out,
     Raised "RuntimeError" = ValueError msg /\
     check_input Toy.world [Toy.constant_template] [Toy.scalar Toy.three] =
     Ok tt /\
     convert_all_to_fenics Toy.world [Toy.constant_template]
       [Toy.scalar Toy.three] = Ok ins /\
     Toy.raising_function ins = Returns out).
Proof.
  exact (assemble_eval_failures Toy.world Toy.raising_function
           [Toy.constant_template] [Toy.scalar Toy.three]
           (Raised "RuntimeError") eq_refl).
Defined.

(** ** The sensitivity builders: composition and failures *)

Section Sensitivities.

Context (K : Collaborators).

(** X4.  The gradient computation treats every input on its own.  On a
    list of inputs in two parts it returns exactly when it returns on both
    parts, and then its result is the two results one after the other;
    so the entry of an input is what the computation gives on that input
    alone, wherever it stands and whatever the other inputs are. *)
Theorem vjp_assemble_impl_app (g : ndarray) (F : Form K)
  (ins ins' : list (FenicsVariable K)) (grads : list (option ndarray)) :
  (vjp_assemble_impl K g F (ins ++ ins') = Ok grads <->
   exists gs gs',
     grads = gs ++ gs' /\
     vjp_assemble_impl K g F ins = Ok gs /\
     vjp_assemble_impl K g F ins' = Ok gs') /\
  (vjp_assemble_impl K g F ins = Ok grads ->
   forall i v, nth_error ins i = Some v ->
     exists grad,
       nth_error grads i = Some grad /\
       vjp_assemble_impl K g F [v] = Ok [grad]).
Proof.
  assert (Happ : forall a b gr,
             vjp_assemble_impl K g F (a ++ b) = Ok gr <->
             exists gs gs',
               gr = gs ++ gs' /\
               vjp_assemble_impl K g F a = Ok gs /\
               vjp_assemble_impl K g F b = Ok gs').
  { intros a b gr. unfold vjp_assemble_impl. split.
    - intro H.
      apply bind_Ok in H. destruct H as (forms & Hforms & H).
      apply bind_Ok in H. destruct H as (fgs & Hfgs & H).
      apply mapM_app in Hforms. destruct Hforms as (fa & fb & -> & Hfa & Hfb).
      apply mapM_app in Hfgs. destruct Hfgs as (ga & gb & -> & Hga & Hgb).
      apply mapM_app in H. destruct H as (gs & gs' & -> & Hgs & Hgs').
      exists gs, gs'. rewrite Hfa, Hfb. simpl. rewrite Hga, Hgb. simpl. auto.
    - intros (gs & gs' & -> & Ha & Hb).
      apply bind_Ok in Ha. destruct Ha as (fa & Hfa & Ha).
      apply bind_Ok in Ha. destruct Ha as (ga & Hga & Ha).
      apply bind_Ok in Hb. destruct Hb as (fb & Hfb & Hb).
      apply bind_Ok in Hb. destruct Hb as (gb & Hgb & Hb).
      assert (E1 : mapM (grad_form K F) (a ++ b) = Ok (fa ++ fb))
        by (apply mapM_app; eauto).
      assert (E2 : mapM (fun form => call (assemble K form)) (fa ++ fb) =
                   Ok (ga ++ gb)) by (apply mapM_app; eauto).
      rewrite E1. simpl. rewrite E2. simpl. apply mapM_app. eauto. }
  split; [apply Happ |].
  revert grads. induction ins as [| v0 rest IH]; intros grads H i v Hi.
  - destruct i; discriminate Hi.
  - change (v0 :: rest) with ([v0] ++ rest) in H.
    apply Happ in H. destruct H as (gs & gs' & -> & H0 & Hrest).
    pose proof (vjp_assemble_impl_length _ _ _ _ _ H0) as Hl.
    destruct gs as [| g0 [| g1 gs]]; try discriminate Hl.
    destruct i as [| i]; simpl in *.
    + injection Hi as <-. exists g0. auto.
    + exact (IH gs' Hrest i v Hi).
Qed.

Variable fenics_function : user_function K.
Variable fenics_templates : list (FenicsVariable K).

Lemma accumulate_Err (F : Form K) (acc : float + Form K)
  (pairs : list (FenicsVariable K * FenicsVariable K)) (e : exn) :
  accumulate K F acc pairs = Err e -> exists n, e = Raised n.
Proof.
  revert acc. induction pairs as [| [fp ft] rest IH]; intros acc H;
    simpl in H; [discriminate H |].
  destruct (derivative K F fp (Along ft)) as [d | n]; simpl in H;
    [| injection H as <-; eauto].
  destruct acc as [x | A]; simpl in H.
  - destruct (form_radd K d x) as [B | n]; simpl in H;
      [exact (IH _ H) | injection H as <-; eauto].
  - destruct (form_add K A d) as [B | n]; simpl in H;
      [exact (IH _ H) | injection H as <-; eauto].
Qed.

(** X6.  The forward-mode builder ends with UnboundLocalError in one case
    only: the variable is [output_tangent], the forward evaluation of the
    primals went through and the tangents were converted, and there was
    no pair of a primal and a tangent input to differentiate along; in
    particular there is no primal and no tangent argument. *)
Theorem jvp_unbound_only_without_inputs (primals tangents : list ndarray)
  (var : string) :
  jvp_assemble_eval K fenics_function fenics_templates primals tangents =
  Err (UnboundLocalError var) ->
  var = "output_tangent" /\
  primals = [] /\ tangents = [] /\ fenics_templates = [] /\
  exists out F,
    assemble_eval K fenics_function fenics_templates primals =
    Ok (out, F, []).
Proof.
  unfold jvp_assemble_eval.
  destruct (assemble_eval K fenics_function fenics_templates primals)
    as [[[out F] ins] | e] eqn:Heval; simpl.
  2: { intro H. injection H as ->.
       apply assemble_eval_Err_kind in Heval.
       destruct Heval as [H | [[n H] | [m H]]]; discriminate H. }
  destruct (convert_all_to_fenics K ins tangents) as [tins | e] eqn:Hconv;
    simpl.
  2: { intro H. injection H as ->. exfalso.
       unfold convert_all_to_fenics in Hconv.
       destruct (Nat.eqb (length tangents) (length ins)); simpl in Hconv;
         [| discriminate Hconv].
       apply convert_each_Err in Hconv. destruct Hconv as [n Hn].
       discriminate Hn. }
  destruct (accumulate K F (inl 0%float) (combine ins tins))
    as [[x | A] | e] eqn:Hacc; simpl.
  - intro H. injection H as <-.
    apply accumulate_float in Hacc. destruct Hacc as [Hpairs _].
    pose proof (convert_all_to_fenics_length _ _ _ _ Hconv) as [Ht Hi].
    assert (ins = []) as ->.
    { destruct ins as [| p ps]; [reflexivity |].
      destruct tins; [discriminate Hi | discriminate Hpairs]. }
    pose proof (assemble_eval_inputs_length _ _ _ _ _ _ _ Heval) as Hp.
    apply assemble_eval_Ok in Heval as Hinv.
    destruct Hinv as (_ & Hv & _).
    apply convert_all_to_fenics_length in Hv. destruct Hv as [_ Hts].
    destruct tins; [| discriminate Hi].
    destruct primals; [| discriminate Hp].
    destruct tangents; [| discriminate Ht].
    destruct fenics_templates; [| discriminate Hts].
    repeat split. eauto.
  - destruct (expand_derivatives K A) as [A' | n]; simpl; [| discriminate].
    destruct (assemble K A') as [t | n]; simpl; discriminate.
  - intro H. injection H as ->. apply accumulate_Err in Hacc.
    destruct Hacc as [n Hn]. discriminate Hn.
Qed.

(** X7.  Abstract evaluation runs the whole forward evaluation: on the
    same arguments it fails exactly when plain evaluation fails, with the
    same exception, and whenever plain evaluation returns, the shape it
    reports is the empty shape of a scalar. *)
Theorem abstract_eval_is_scalar_shape (args : list ndarray) :
  abstract_eval_rule K fenics_templates fenics_function args =
  match impl_rule K fenics_templates fenics_function args with
  | Ok _ => Ok []
  | Err e => Err e
  end.
Proof.
  unfold abstract_eval_rule, impl_rule, make_shaped_array.
  destruct (assemble_eval K fenics_function fenics_templates args)
    as [[[out F] ins] | e] eqn:Heval; simpl; [| reflexivity].
  apply assemble_eval_Ok in Heval.
  destruct Heval as (_ & _ & a & b & x & _ & _ & _ & ->). reflexivity.
Qed.

End Sensitivities.

(** The gradients of two inputs are the gradients of each. *)
Lemma vjp_assemble_impl_app_witness :
  vjp_assemble_impl Toy.world (Toy.scalar Toy.three) 7
    ([Toy.AConstant (Toy.scalar Toy.three)] ++
     [Toy.AFunction 9 (Toy.scalar Toy.one)]) =
  Ok ([Some (Toy.scalar 6%float)] ++ [None]).
Proof.
  apply (proj2 (proj1 (vjp_assemble_impl_app Toy.world
                         (Toy.scalar Toy.three) 7
                         [Toy.AConstant (Toy.scalar Toy.three)]
                         [Toy.AFunction 9 (Toy.scalar Toy.one)]
                         ([Some (Toy.scalar 6%float)] ++ [None])))).
  exists [Some (Toy.scalar 6%float)], [None]. repeat split.
Defined.

(** The forward-mode builder without inputs, read backwards. *)
Lemma jvp_unbound_only_without_inputs_witness :
  "output_tangent" = "output_tangent" /\
  @nil ndarray = [] /\ @nil ndarray = [] /\
  @nil Toy.variable = [] /\
  exists out F,
    assemble_eval Toy.world Toy.good_function [] [] = Ok (out, F, []).
Proof.
  exact (jvp_unbound_only_without_inputs Toy.world Toy.good_function
           [] [] [] "output_tangent" eq_refl).
Defined.

(** ** The batched-evaluation rule: sizes and arguments *)

Section BatchSizes.

Context (K : Collaborators).

Variable fenics_templates : list (FenicsVariable K).
Variable fenics_function : user_function K.

Lemma chunks_length (n m : nat) (l : list float) :
  length (chunks n m l) = n.
Proof.
  revert l. induction n as [| n IH]; intro l; simpl; [reflexivity |].
  rewrite IH. reflexivity.
Qed.

Lemma iter_rows_length (a : ndarray) (rows : list ndarray) :
  iter_rows a = Ok rows -> length rows = hd 0 (shape a).
Proof.
  unfold iter_rows. destruct (shape a) as [| n s]; [discriminate |].
  intro H. injection H as <-. rewrite length_map. apply chunks_length.
Qed.

Lemma iter_rows_lengths (vals : list ndarray) (its : list (list ndarray)) :
  mapM iter_rows vals = Ok its ->
  map (@length ndarray) its = map (fun a => hd 0 (shape a)) vals.
Proof.
  intro H. apply mapM_Forall2 in H.
  induction H as [| a rows vals its Ha _ IH]; simpl; [reflexivity |].
  rewrite IH, (iter_rows_length _ _ Ha). reflexivity.
Qed.

Lemma fold_min_0 (l : list nat) : fold_right Nat.min 0 l = 0.
Proof.
  induction l as [| x l IH]; simpl; [reflexivity |].
  rewrite IH. apply Nat.min_0_r.
Qed.

(** One round of zipping: either every list gives its head and all get
    shorter by one, or a list is empty and the shortest length is 0. *)
Lemma heads_fold_min {A : Type} (n : nat) (ls : list (list A)) :
  match heads ls with
  | Some _ =>
      fold_right Nat.min (S n) (map (@length A) ls) =
      S (fold_right Nat.min n (map (@length A) (map (@tl A) ls)))
  | None => fold_right Nat.min (S n) (map (@length A) ls) = 0
  end.
Proof.
  induction ls as [| l ls IH]; simpl; [reflexivity |].
  destruct l as [| x l]; simpl; [reflexivity |].
  destruct (heads ls); simpl.
  - rewrite IH. reflexivity.
  - rewrite IH. reflexivity.
Qed.

Lemma zip_upto_length {A : Type} (n : nat) (ls : list (list A)) :
  length (zip_upto n ls) = fold_right Nat.min n (map (@length A) ls).
Proof.
  revert ls. induction n as [| n IH]; intro ls; simpl.
  - symmetry. apply fold_min_0.
  - pose proof (heads_fold_min n ls) as H.
    destruct (heads ls); simpl; rewrite H; [rewrite IH |]; reflexivity.
Qed.

Lemma iter_rows_scalar (vals : list ndarray) :
  Exists (fun a => shape a = []) vals ->
  mapM iter_rows vals = Err (TypeError "iteration over a 0-d array").
Proof.
  induction 1 as [a vals Ha | a vals _ IH]; simpl.
  - unfold iter_rows. rewrite Ha. reflexivity.
  - rewrite IH. unfold iter_rows.
    destruct (shape a); reflexivity.
Qed.

Lemma jax_assemble_eval_entry (args : list ndarray) (out : ndarray) :
  jax_assemble_eval K fenics_templates fenics_function args = Ok out ->
  shape out = [] /\ length (data out) = 1.
Proof.
  unfold jax_assemble_eval, impl_rule. intro H.
  apply bind_Ok in H. destruct H as ([[o F] ins] & Heval & H).
  injection H as <-. apply assemble_eval_Ok in Heval.
  destruct Heval as (_ & _ & a & b & x & _ & _ & _ & ->). split; reflexivity.
Qed.

Lemma concat_singletons (outs : list ndarray) :
  Forall (fun o => shape o = [] /\ length (data o) = 1) outs ->
  length (concat (map data outs)) = length outs.
Proof.
  induction 1 as [| o outs [_ Ho] _ IH]; simpl; [reflexivity |].
  rewrite length_app, Ho, IH. reflexivity.
Qed.

(** X8.  The batched-evaluation rule runs over as many rows as its
    shortest argument has.  Whenever it returns, there is at least one
    argument, the batch axis it reports is 0, and the result is a 1-d
    array whose length is the least of the leading lengths of the
    arguments: arguments with different batch sizes are not refused, and
    the rows beyond the shortest are left out. *)
Theorem batch_runs_to_the_shortest (vector_arg_values : list ndarray)
  (batch_axes : list (option Z)) (res : ndarray) (axis : option Z) :
  jax_assemble_eval_batch K fenics_templates fenics_function
    vector_arg_values batch_axes = Ok (res, axis) ->
  axis = Some 0%Z /\
  exists v rest,
    vector_arg_values = v :: rest /\
    shape res =
    [fold_right Nat.min (hd 0 (shape v))
       (map (fun a => hd 0 (shape a)) vector_arg_values)] /\
    length (data res) =
    fold_right Nat.min (hd 0 (shape v))
      (map (fun a => hd 0 (shape a)) vector_arg_values).
Proof.
  unfold jax_assemble_eval_batch. intro H.
  apply bind_Ok in H. destruct H as ([] & _ & H).
  apply bind_Ok in H. destruct H as (axis0 & _ & H).
  apply bind_Ok in H. destruct H as ([] & Hax & H).
  apply bind_Ok in H. destruct H as (its & Hits & H).
  apply bind_Ok in H. destruct H as (arguments & Hargs & H).
  apply bind_Ok in H. destruct H as (outs & Houts & H).
  apply bind_Ok in H. destruct H as (arr & Harr & H).
  injection H as <- <-.
  split.
  { unfold py_assert, axis_eqb in Hax.
    destruct (axis_eq_dec axis0 (Some 0%Z)); [assumption | discriminate Hax]. }
  pose proof (iter_rows_lengths _ _ Hits) as Hlen.
  destruct its as [| l its]; [discriminate Hargs |].
  simpl in Hargs. injection Hargs as <-.
  destruct vector_arg_values as [| v rest]; [discriminate Hlen |].
  exists v, rest. split; [reflexivity |].
  assert (Hentries : Forall (fun o => shape o = [] /\ length (data o) = 1)
                       outs).
  { apply mapM_Forall2 in Houts. clear - Houts.
    induction Houts as [| set out sets outs Hout _ IH]; constructor;
      [exact (jax_assemble_eval_entry _ _ Hout) | exact IH]. }
  rewrite asarray_list_scalars in Harr.
  2: { eapply Forall_impl; [| exact Hentries]. intros o [Ho _]. exact Ho. }
  injection Harr as <-.
  apply mapM_length in Houts. rewrite zip_upto_length in Houts.
  rewrite Hlen in Houts. simpl in Hlen. injection Hlen as Hl _.
  rewrite Hl in Houts.
  unfold stack. simpl shape. simpl data.
  rewrite (concat_singletons _ Hentries), Houts. split; reflexivity.
Qed.

(** X9.  With a common batch axis 0, the rule still fails with a
    TypeError when it is given no argument at all, or when one of its
    arguments is a 0-d array, which cannot be iterated over. *)
Theorem batch_needs_iterable_arguments (vector_arg_values : list ndarray)
  (batch_axes : list (option Z)) :
  batch_axes <> [] ->
  (forall a, In a batch_axes -> a = Some 0%Z) ->
  vector_arg_values = [] \/
  Exists (fun a => shape a = []) vector_arg_values ->
  exists msg,
    jax_assemble_eval_batch K fenics_templates fenics_function
      vector_arg_values batch_axes = Err (TypeError msg).
Proof.
  intros Hne Hall Hbad.
  rewrite (jax_assemble_eval_batch_passed K _ _ _ _ Hne Hall).
  destruct Hbad as [-> | Hex].
  - simpl. eauto.
  - rewrite (iter_rows_scalar _ Hex). simpl. eauto.
Qed.

End BatchSizes.

(** Two rows against three: two evaluations. *)
Lemma batch_runs_to_the_shortest_witness :
  Some 0%Z = Some 0%Z /\
  exists v rest,
    [mk_ndarray [2] [Toy.one; Toy.three];
     mk_ndarray [3] [Toy.one; Toy.one; Toy.one]] = v :: rest /\
    shape (mk_ndarray [2] [Toy.one; Toy.three]) =
    [fold_right Nat.min (hd 0 (shape v))
       (map (fun a => hd 0 (shape a))
          [mk_ndarray [2] [Toy.one; Toy.three];
           mk_ndarray [3] [Toy.one; Toy.one; Toy.one]])] /\
    length (data (mk_ndarray [2] [Toy.one; Toy.three])) =
    fold_right Nat.min (hd 0 (shape v))
      (map (fun a => hd 0 (shape a))
         [mk_ndarray [2] [Toy.one; Toy.three];
          mk_ndarray [3] [Toy.one; Toy.one; Toy.one]]).
Proof.
  exact (batch_runs_to_the_shortest Toy.world
           [Toy.constant_template; Toy.constant_template] Toy.read_first
           [mk_ndarray [2] [Toy.one; Toy.three];
            mk_ndarray [3] [Toy.one; Toy.one; Toy.one]]
           [Some 0%Z; Some 0%Z]
           (mk_ndarray [2] [Toy.one; Toy.three]) (Some 0%Z) eq_refl).
Defined.

(** A scalar argument with batch axis 0. *)
Lemma batch_needs_iterable_arguments_witness :
  exists msg,
    jax_assemble_eval_batch Toy.world [Toy.constant_template]
      Toy.good_function [Toy.scalar Toy.one] [Some 0%Z] =
    Err (TypeError msg).
Proof.
  apply (batch_needs_iterable_arguments Toy.world [Toy.constant_template]
           Toy.good_function [Toy.scalar Toy.one] [Some 0%Z]).
  - discriminate.
  - intros a [<- | []]. reflexivity.
  - right. constructor. reflexivity.
Defined.

(** ** The decorator and the registries *)

Section Decorations.

Context (K : Collaborators).

(** What one decoration does to the state: two identities are taken and
    five rules are added at the end. *)
Lemma build_state (fenics_templates : list (FenicsVariable K))
  (fenics_function : user_function K) (s : jax_state K) :
  let built := build_jax_assemble_eval K fenics_templates fenics_function s in
  binds (fst built) = next_identity s /\
  next_identity (snd built) = S (S (next_identity s)) /\
  registered (snd built) =
  registered s ++
  [(next_identity s, Impl K (impl_rule K fenics_templates fenics_function));
   (next_identity s,
    AbstractEval K (abstract_eval_rule K fenics_templates fenics_function));
   (next_identity s,
    Batcher K (jax_assemble_eval_batch K fenics_templates fenics_function));
   (S (next_identity s),
    ImplPair K (vjp_assemble_eval K fenics_function fenics_templates));
   (next_identity s,
    VjpAll K (djax_assemble_eval K fenics_templates fenics_function))].
Proof.
  cbn [build_jax_assemble_eval new_Primitive register registered
       next_identity identity fst snd binds].
  repeat rewrite <- app_assoc. repeat split.
Qed.

Lemma rules_of_added (i : nat) (s s' : jax_state K)
  (added : list (nat * rule K)) :
  registered s' = registered s ++ added ->
  rules_of i s' =
  rules_of i s ++ map snd (filter (fun e => Nat.eqb (fst e) i) added).
Proof.
  unfold rules_of. intros ->. rewrite filter_app, map_app. reflexivity.
Qed.

Lemma rules_of_unused (s : jax_state K) (i : nat) :
  consistent s -> next_identity s <= i -> rules_of i s = [].
Proof.
  unfold consistent, rules_of. intros H Hi.
  induction (registered s) as [| e l IH]; simpl; [reflexivity |].
  inversion H as [| e' l' He Hl]; subst.
  destruct (Nat.eqb_spec (fst e) i) as [E | _]; [lia |].
  exact (IH Hl).
Qed.

(** The rules of an identity after one decoration. *)
Lemma rules_of_build (fenics_templates : list (FenicsVariable K))
  (fenics_function : user_function K) (s : jax_state K) (i : nat) :
  rules_of i
    (snd (build_jax_assemble_eval K fenics_templates fenics_function s)) =
  rules_of i s ++
  (if Nat.eqb i (next_identity s)
   then [Impl K (impl_rule K fenics_templates fenics_function);
         AbstractEval K
           (abstract_eval_rule K fenics_templates fenics_function);
         Batcher K
           (jax_assemble_eval_batch K fenics_templates fenics_function);
         VjpAll K (djax_assemble_eval K fenics_templates fenics_function)]
   else if Nat.eqb i (S (next_identity s))
   then [ImplPair K (vjp_assemble_eval K fenics_function fenics_templates)]
   else []).
Proof.
  destruct (build_state fenics_templates fenics_function s) as (_ & _ & Hreg).
  rewrite (rules_of_added i _ _ _ Hreg). f_equal.
  cbn [filter fst snd map].
  rewrite (Nat.eqb_sym (next_identity s) i).
  rewrite (Nat.eqb_sym (S (next_identity s)) i).
  destruct (Nat.eqb_spec i (next_identity s)) as [-> | Hn].
  - replace (Nat.eqb (next_identity s) (S (next_identity s))) with false
      by (symmetry; apply Nat.eqb_neq; lia).
    reflexivity.
  - destruct (Nat.eqb i (S (next_identity s))); reflexivity.
Qed.

(** X10.  A decoration leaves the registries in order.  From a consistent
    state it leads to a consistent state in which two more identities are
    taken; the rules of every other identity are what they were; and the
    second identity it takes has one rule only, the evaluation rule that
    runs [vjp_assemble_eval]. *)
Theorem build_keeps_registry (fenics_templates : list (FenicsVariable K))
  (fenics_function : user_function K) (s : jax_state K) :
  consistent s ->
  let built := build_jax_assemble_eval K fenics_templates fenics_function s in
  consistent (snd built) /\
  next_identity (snd built) = S (S (next_identity s)) /\
  (forall i, i <> next_identity s -> i <> S (next_identity s) ->
   rules_of i (snd built) = rules_of i s) /\
  rules_of (S (next_identity s)) (snd built) =
  [ImplPair K (vjp_assemble_eval K fenics_function fenics_templates)].
Proof.
  intros Hs built.
  destruct (build_state fenics_templates fenics_function s)
    as (_ & Hnext & Hreg).
  fold built in Hnext, Hreg.
  split; [| split; [exact Hnext | split]].
  - unfold consistent. rewrite Hreg, Hnext. apply Forall_app. split.
    + eapply Forall_impl; [| exact Hs]. simpl. intros e He. lia.
    + repeat constructor; simpl; lia.
  - intros i H1 H2. unfold built. rewrite rules_of_build.
    apply Nat.eqb_neq in H1, H2. rewrite H1, H2. apply app_nil_r.
  - unfold built. rewrite rules_of_build.
    rewrite (rules_of_unused s _ Hs) by lia.
    replace (Nat.eqb (S (next_identity s)) (next_identity s)) with false
      by (symmetry; apply Nat.eqb_neq; lia).
    rewrite Nat.eqb_refl. reflexivity.
Qed.

(** X11.  Two decorations do not interfere.  When a second function is
    decorated after a first, the two functions bind different
    identities, the rules of the first identity are the ones the first
    decoration put there, and each identity has its own four behaviours:
    plain, abstract and batched evaluation and the reverse-mode
    derivative. *)
Theorem two_decorations_do_not_interfere
  (templates1 templates2 : list (FenicsVariable K))
  (function1 function2 : user_function K) (s : jax_state K) :
  consistent s ->
  let first := build_jax_assemble_eval K templates1 function1 s in
  let second :=
    build_jax_assemble_eval K templates2 function2 (snd first) in
  binds (fst first) <> binds (fst second) /\
  rules_of (binds (fst first)) (snd second) =
  rules_of (binds (fst first)) (snd first) /\
  map behaviour_of (rules_of (binds (fst first)) (snd second)) =
  [Evaluation; AbstractEvaluation; BatchedEvaluation; ReverseDerivative] /\
  map behaviour_of (rules_of (binds (fst second)) (snd second)) =
  [Evaluation; AbstractEvaluation; BatchedEvaluation; ReverseDerivative].
Proof.
  intros Hs first second.
  destruct (build_state templates1 function1 s) as (Hb1 & Hn1 & _).
  destruct (build_state templates2 function2 (snd first)) as (Hb2 & _ & _).
  fold first in Hb1, Hn1. fold second in Hb2.
  assert (Hs1 : consistent (snd first)).
  { unfold consistent, first.
    destruct (build_state templates1 function1 s) as (_ & Hn & Hreg).
    rewrite Hreg, Hn. apply Forall_app. split.
    - eapply Forall_impl; [| exact Hs]. simpl. intros e He. lia.
    - repeat constructor; simpl; lia. }
  assert (Hfirst : rules_of (next_identity s) (snd first) =
                   [Impl K (impl_rule K templates1 function1);
                    AbstractEval K (abstract_eval_rule K templates1 function1);
                    Batcher K (jax_assemble_eval_batch K templates1 function1);
                    VjpAll K (djax_assemble_eval K templates1 function1)]).
  { unfold first. rewrite rules_of_build.
    rewrite (rules_of_unused s _ Hs) by lia.
    rewrite Nat.eqb_refl. reflexivity. }
  assert (Hkeep : rules_of (next_identity s) (snd second) =
                  rules_of (next_identity s) (snd first)).
  { unfold second. rewrite rules_of_build. rewrite Hn1.
    replace (Nat.eqb (next_identity s) (S (S (next_identity s)))) with false
      by (symmetry; apply Nat.eqb_neq; lia).
    replace (Nat.eqb (next_identity s) (S (S (S (next_identity s)))))
      with false by (symmetry; apply Nat.eqb_neq; lia).
    apply app_nil_r. }
  rewrite Hb1, Hb2, Hn1.
  split; [lia |]. split; [exact Hkeep |]. split.
  - rewrite Hkeep, Hfirst. reflexivity.
  - unfold second. rewrite rules_of_build.
    rewrite (rules_of_unused (snd first) _ Hs1) by lia.
    rewrite Hn1, Nat.eqb_refl. reflexivity.
Qed.

(** X12.  What is registered hangs together.  After a decoration the
    identity the decorated function binds has an evaluation rule, an
    abstract-evaluation rule, a batching rule and a reverse-mode rule
    such that: calling the decorated function is running the evaluation
    rule; the reverse-mode rule fails exactly when the evaluation rule
    fails, with the same exception, and otherwise returns as its value
    what the evaluation rule returns; and the reverse-mode rule is the
    function the evaluation rule of the second identity runs. *)
Theorem registered_rules_agree (fenics_templates : list (FenicsVariable K))
  (fenics_function : user_function K) (s : jax_state K) :
  consistent s ->
  let built := build_jax_assemble_eval K fenics_templates fenics_function s in
  exists evaluate abstract batch reverse,
    rules_of (binds (fst built)) (snd built) =
    [Impl K evaluate; AbstractEval K abstract; Batcher K batch;
     VjpAll K reverse] /\
    rules_of (S (binds (fst built))) (snd built) = [ImplPair K reverse] /\
    (forall args, run (fst built) args = evaluate args) /\
    (forall args,
       evaluate args =
       match reverse args with
       | Ok (out, _) => Ok out
       | Err e => Err e
       end).
Proof.
  intros Hs built.
  destruct (build_state fenics_templates fenics_function s) as (Hb & _ & _).
  fold built in Hb. rewrite Hb. unfold built.
  do 4 eexists. split; [| split; [| split]].
  - rewrite rules_of_build, (rules_of_unused s _ Hs) by lia.
    rewrite Nat.eqb_refl. reflexivity.
  - rewrite rules_of_build, (rules_of_unused s _ Hs) by lia.
    replace (Nat.eqb (S (next_identity s)) (next_identity s)) with false
      by (symmetry; apply Nat.eqb_neq; lia).
    rewrite Nat.eqb_refl. reflexivity.
  - intro args. reflexivity.
  - intro args.
    unfold impl_rule, djax_assemble_eval, vjp_assemble_eval.
    destruct (assemble_eval K fenics_function fenics_templates args)
      as [[[out F] ins] | e]; reflexivity.
Qed.

End Decorations.

(** The first decoration in an empty state. *)
Lemma build_keeps_registry_witness :
  consistent
    (snd (build_jax_assemble_eval Toy.world [Toy.constant_template]
            Toy.good_function Toy.empty_state)) /\
  next_identity
    (snd (build_jax_assemble_eval Toy.world [Toy.constant_template]
            Toy.good_function Toy.empty_state)) = 2.
Proof.
  destruct (build_keeps_registry Toy.world [Toy.constant_template]
              Toy.good_function Toy.empty_state (Forall_nil _))
    as (H1 & H2 & _).
  exact (conj H1 H2).
Defined.

(** Two decorations from the empty state bind the identities 0 and 2. *)
Lemma two_decorations_do_not_interfere_witness :
  binds
    (fst (build_jax_assemble_eval Toy.world [Toy.constant_template]
            Toy.good_function Toy.empty_state)) <>
  binds
    (fst (build_jax_assemble_eval Toy.world [Toy.function_template]
            Toy.read_first
            (snd (build_jax_assemble_eval Toy.world [Toy.constant_template]
                    Toy.good_function Toy.empty_state)))).
Proof.
  exact (proj1
    (two_decorations_do_not_interfere Toy.world [Toy.constant_template]
       [Toy.function_template] Toy.good_function Toy.read_first
       Toy.empty_state (Forall_nil _))).
Defined.

(** The rules of the first decoration in an empty state. *)
Lemma registered_rules_agree_witness :
  exists evaluate abstract batch reverse,
    rules_of 0
      (snd (build_jax_assemble_eval Toy.world [Toy.constant_template]
              Toy.good_function Toy.empty_state)) =
    [Impl Toy.world evaluate; AbstractEval Toy.world abstract;
     Batcher Toy.world batch; VjpAll Toy.world reverse] /\
    rules_of 1
      (snd (build_jax_assemble_eval Toy.world [Toy.constant_template]
              Toy.good_function Toy.empty_state)) =
    [ImplPair Toy.world reverse] /\
    (forall args,
       jax_assemble_eval Toy.world [Toy.constant_template]
         Toy.good_function args = evaluate args) /\
    (forall args,
       evaluate args =
       match reverse args with
       | Ok (out, _) => Ok out
       | Err e => Err e
       end).
Proof.
  exact (registered_rules_agree Toy.world [Toy.constant_template]
           Toy.good_function Toy.empty_state (Forall_nil _)).
Defined.

(** ** The closure of the reverse mode: failures *)

Section ClosureFailures.

Context (K : Collaborators).

Lemma jax_grad_Err (g : ndarray) (fg : option (Tensor K)) (e : exn) :
  jax_grad K g fg = Err e -> exists n, e = Raised n.
Proof.
  destruct fg as [t |]; simpl; [| discriminate].
  destruct (fenics_to_numpy K t) as [a | n]; simpl;
    [| intro H; injection H as <-; eauto].
  destruct (multiply K g a) as [p | n]; simpl;
    [discriminate | intro H; injection H as <-; eauto].
Qed.

Lemma vjp_assemble_impl_Err (g : ndarray) (F : Form K)
  (ins : list (FenicsVariable K)) (e : exn) :
  vjp_assemble_impl K g F ins = Err e ->
  (e = NotImplementedError /\
   Exists (fun v => supported K v = false) ins) \/
  exists n, e = Raised n.
Proof.
  unfold vjp_assemble_impl. intro H.
  destruct (mapM (grad_form K F) ins) as [forms | e1] eqn:E1; simpl in H.
  - destruct (mapM (fun form => call (assemble K form)) forms)
      as [fgs | e2] eqn:E2; simpl in H.
    + apply mapM_Err in H. destruct H as (pre & x & post & ys & _ & _ & Hx).
      right. exact (jax_grad_Err _ _ _ Hx).
    + injection H as ->. apply mapM_Err in E2.
      destruct E2 as (pre & x & post & ys & _ & _ & Hx).
      right. destruct (assemble K x); [discriminate Hx |].
      injection Hx as <-. eauto.
  - injection H as ->. apply mapM_Err in E1.
    destruct E1 as (pre & x & post & ys & -> & _ & Hx).
    destruct (grad_form_Err K F x _ Hx) as [-> | Hr]; [left | right; exact Hr].
    split; [reflexivity |].
    apply Exists_app. right. constructor.
    apply (grad_form_NotImplemented K F). exact Hx.
Qed.

(** X5.  What a call of the reverse-mode closure can fail with.  For a
    closure that [vjp_assemble_eval] returned, a failing call ends either
    with NotImplementedError, and then one of the inputs is neither a
    Function nor a Constant, or with the exception a collaborator raised.
    The lookup [args[i]] for a missing gradient is always within bounds:
    the closure never fails with IndexError. *)
Theorem vjp_closure_failures (fenics_function : user_function K)
  (fenics_templates : list (FenicsVariable K)) (args : list ndarray)
  (out : ndarray) (vjp : ndarray -> result (list ndarray))
  (g : ndarray) (e : exn) :
  vjp_assemble_eval K fenics_function fenics_templates args = Ok (out, vjp) ->
  vjp g = Err e ->
  e <> IndexError /\
  exists F ins,
    assemble_eval K fenics_function fenics_templates args = Ok (out, F, ins) /\
    ((e = NotImplementedError /\
      Exists (fun v => supported K v = false) ins) \/
     exists n, e = Raised n).
Proof.
  unfold vjp_assemble_eval. intros H Hg.
  apply bind_Ok in H. destruct H as ([[o F] ins] & Heval & H).
  injection H as <- <-.
  assert (Hkind : (e = NotImplementedError /\
                   Exists (fun v => supported K v = false) ins) \/
                  exists n, e = Raised n).
  { unfold vjp_fun in Hg.
    destruct (vjp_assemble_impl K g F ins) as [grads | e'] eqn:Himpl;
      simpl in Hg.
    - exfalso.
      pose proof (vjp_assemble_impl_length _ _ _ _ _ Himpl) as Hlen.
      pose proof (assemble_eval_inputs_length _ _ _ _ _ _ _ Heval) as Hins.
      destruct (fill_zeros_total args grads 0) as (t & Ht & _); [lia |].
      congruence.
    - injection Hg as ->. exact (vjp_assemble_impl_Err _ _ _ _ Himpl). }
  split.
  - destruct Hkind as [[-> _] | [n ->]]; discriminate.
  - exists F, ins. auto.
Qed.

End ClosureFailures.

(** A closure over an input of another kind. *)
Lemma vjp_closure_failures_witness :
  NotImplementedError <> IndexError /\
  exists F ins,
    assemble_eval Toy.world Toy.good_function [Toy.AnExpression]
      [Toy.scalar Toy.one] = Ok (Toy.scalar Toy.three, F, ins) /\
    ((NotImplementedError = NotImplementedError /\
      Exists (fun v => supported Toy.world v = false) ins) \/
     exists n, NotImplementedError = Raised n).
Proof.
  exact (vjp_closure_failures Toy.world Toy.good_function
           [Toy.AnExpression] [Toy.scalar Toy.one] (Toy.scalar Toy.three)
           (vjp_fun Toy.world [Toy.scalar Toy.one] 7 [Toy.AnExpression])
           (Toy.scalar Toy.one) NotImplementedError eq_refl eq_refl).
Defined.
